(** * BentonGeoPro sync dashboard: staging, approval and rollback logs

    A shallow embedding of [server/main.py] (and of the stand-alone
    [attached_assets/sync_rollback_api.py]) together with the properties
    of the three-log workflow.

    Conventions.
    - A Python [str] is a list of Unicode code points ([list N]); [bytes]
      is a list of [Byte.byte].
    - A CSV log file is the list of its rows, in file order, each row the
      text of its seven cells.  Writing a [DataFrame] with [to_csv] and
      reading it back with [read_csv] is taken to be the identity on rows
      of text cells.  pandas does more than that: it infers a type for
      each column, so a rewritten log can hold a cell in another form (a
      property id 0045 as 45, 4500 as 4500.0 beside a missing value, N/A
      as the empty cell).  That does not happen to an upload id or to a
      status, which are neither numbers nor missing-value markers;
      [statuses] below is the view of a log on these two cells, and what
      approve, rollback and sequences of requests do to rows already in a
      log is stated on that view.
    - Reading and writing a log file is taken to succeed: of the file
      operations of a request only the write of the uploaded bytes can
      fail.  A request that breaks between its two [to_csv] calls is not
      a request of this model.
    - Paths are joined as on a POSIX system ([posixpath.join]).
    - What the environment supplies to a request (the clock, the UUID
      generator, the outcome of the disk write) is an explicit argument. *)

From Stdlib Require Import ZArith NArith List Ascii String Strings.Byte Lia Bool.
From stdpp Require Import base option list gmap sorting.

Open Scope N_scope.

(** ** Python strings *)

Module PyStr.

Definition str := list N.

(** A string literal of the source, as code points. *)
Definition lit (s : string) : str := map N_of_ascii (list_ascii_of_string s).

Definition eqb (a b : str) : bool := bool_decide (a = b).

(** [prefix in s] at position 0. *)
Fixpoint startswith (prefix s : str) : bool :=
  match prefix, s with
  | [], _ => true
  | _ :: _, [] => false
  | a :: prefix', b :: s' => (a =? b) && startswith prefix' s'
  end.

(** The operator [needle in hay] on strings. *)
Fixpoint contains (needle hay : str) : bool :=
  startswith needle hay ||
  match hay with
  | [] => false
  | _ :: hay' => contains needle hay'
  end.

(** [str.lower()].  The ASCII letters are mapped as usual.  Outside
    ASCII only the two code points whose lower-case form has an ASCII
    character are mapped (U+0130 and the Kelvin sign U+212A); every other
    code point above U+007F is left as it is, its lower-case form being
    above U+007F as well. *)
Definition lower_cp (c : N) : str :=
  if (65 <=? c) && (c <=? 90) then [c + 32]
  else if c =? 0x130 then [0x69; 0x307]
  else if c =? 0x212A then [0x6B]
  else [c].

Definition lower (s : str) : str := flat_map lower_cp s.

(** Line boundaries of [str.splitlines()]. *)
Definition is_linebreak (c : N) : bool :=
  ((0x0A <=? c) && (c <=? 0x0D)) || ((0x1C <=? c) && (c <=? 0x1E))
  || (c =? 0x85) || (c =? 0x2028) || (c =? 0x2029).

(** [str.splitlines()]: the breaks are dropped, CR LF is one break, and
    a final break opens no empty last line. *)
Fixpoint splitlines (s : str) : list str :=
  match s with
  | [] => []
  | c :: rest =>
      if is_linebreak c then
        [] :: match rest with
              | c2 :: rest' =>
                  if (c =? 0x0D) && (c2 =? 0x0A) then splitlines rest'
                  else splitlines rest
              | [] => []
              end
      else
        match splitlines rest with
        | [] => [[c]]
        | l :: ls => (c :: l) :: ls
        end
  end.

(** [str.split(sep)] for a separator of one character, the only use in
    the source ([line.split(":")]). *)
Fixpoint split (sep : N) (s : str) : list str :=
  match s with
  | [] => [[]]
  | c :: rest =>
      if c =? sep then [] :: split sep rest
      else
        match split sep rest with
        | [] => [[c]]
        | l :: ls => (c :: l) :: ls
        end
  end.

(** [str.isspace()] on one character. *)
Definition is_space (c : N) : bool :=
  ((0x09 <=? c) && (c <=? 0x0D)) || ((0x1C <=? c) && (c <=? 0x20))
  || (c =? 0x85) || (c =? 0xA0) || (c =? 0x1680)
  || ((0x2000 <=? c) && (c <=? 0x200A))
  || (c =? 0x2028) || (c =? 0x2029) || (c =? 0x202F) || (c =? 0x205F)
  || (c =? 0x3000).

Fixpoint lstrip (s : str) : str :=
  match s with
  | [] => []
  | c :: rest => if is_space c then lstrip rest else s
  end.

Definition rstrip (s : str) : str := rev (lstrip (rev s)).

(** [str.strip()] *)
Definition strip (s : str) : str := rstrip (lstrip s).

(** Comparison of strings as Python orders them: by code point, a
    proper prefix first. *)
Fixpoint compare (a b : str) : comparison :=
  match a, b with
  | [], [] => Eq
  | [], _ :: _ => Lt
  | _ :: _, [] => Gt
  | x :: a', y :: b' =>
      match (x ?= y) with
      | Eq => compare a' b'
      | o => o
      end
  end.

(** [a <= b] *)
Definition leb (a b : str) : bool :=
  match compare a b with Gt => false | _ => true end.

(** The last [width] decimal digits of [n], most significant first:
    the formats [%02d], [%04d] and [%06d] on a number below
    [10 ^ width]. *)
Fixpoint digits (width : nat) (n : N) (acc : str) : str :=
  match width with
  | O => acc
  | S width' => digits width' (n / 10) ((48 + n mod 10) :: acc)
  end.

Definition zfill (width : nat) (n : N) : str := digits width n [].

(** Lower-case hexadecimal digit of a value below 16. *)
Definition hexdigit (d : N) : N := if d <? 10 then 48 + d else 87 + d.

End PyStr.

Import PyStr.

(** ** [bytes.decode("utf-8", errors=...)] *)

Module Utf8.

Definition bytes := list byte.

(** [b"..."] for an ASCII literal of the source. *)
Definition blit (s : string) : bytes := list_byte_of_string s.

Inductive errors := Strict | Ignore.

(** What the decoder does at an undecodable byte sequence: [Strict]
    raises [UnicodeDecodeError] ([None]), [Ignore] drops the sequence and
    goes on with the rest. *)
Definition on_error (e : errors) (rest : option str) : option str :=
  match e with
  | Strict => None
  | Ignore => rest
  end.

Definition emit (c : N) (rest : option str) : option str := cons c <$> rest.

Definition is_continuation (b : N) : bool := (0x80 <=? b) && (b <=? 0xBF).

Definition payload (b : N) : N := N.land b 0x3F.

(** Second byte of a three-byte sequence: continuation byte, neither an
    over-long form (E0 80..9F) nor a surrogate (ED A0..BF). *)
Definition second_of_3 (b0 b1 : N) : bool :=
  is_continuation b1 && negb (if b1 <? 0xA0 then b0 =? 0xE0 else b0 =? 0xED).

(** Second byte of a four-byte sequence: continuation byte, neither an
    over-long form (F0 80..8F) nor above U+10FFFF (F4 90..BF). *)
Definition second_of_4 (b0 b1 : N) : bool :=
  is_continuation b1 && negb (if b1 <? 0x90 then b0 =? 0xF0 else b0 =? 0xF4).

(** The decoder, one sequence at a time.  An invalid start byte is an
    error of one byte; a sequence broken at its k-th byte is an error of
    the k-1 bytes before it; a sequence cut short by the end of the input
    is an error up to the end. *)
Fixpoint decode_from (e : errors) (bs : list N) : option str :=
  match bs with
  | [] => Some []
  | b0 :: r0 =>
      if b0 <? 0x80 then emit b0 (decode_from e r0)
      else if b0 <? 0xC2 then on_error e (decode_from e r0)
      else if b0 <? 0xE0 then
        match r0 with
        | [] => on_error e (Some [])
        | b1 :: r1 =>
            if is_continuation b1
            then emit (N.lor (N.shiftl (N.land b0 0x1F) 6) (payload b1)) (decode_from e r1)
            else on_error e (decode_from e r0)
        end
      else if b0 <? 0xF0 then
        match r0 with
        | [] => on_error e (Some [])
        | b1 :: r1 =>
            if second_of_3 b0 b1 then
              match r1 with
              | [] => on_error e (Some [])
              | b2 :: r2 =>
                  if is_continuation b2
                  then emit (N.lor (N.shiftl (N.land b0 0x0F) 12)
                               (N.lor (N.shiftl (payload b1) 6) (payload b2)))
                            (decode_from e r2)
                  else on_error e (decode_from e r1)
              end
            else on_error e (decode_from e r0)
        end
      else if b0 <? 0xF5 then
        match r0 with
        | [] => on_error e (Some [])
        | b1 :: r1 =>
            if second_of_4 b0 b1 then
              match r1 with
              | [] => on_error e (Some [])
              | b2 :: r2 =>
                  if is_continuation b2 then
                    match r2 with
                    | [] => on_error e (Some [])
                    | b3 :: r3 =>
                        if is_continuation b3
                        then emit (N.lor (N.shiftl (N.land b0 0x07) 18)
                                     (N.lor (N.shiftl (payload b1) 12)
                                        (N.lor (N.shiftl (payload b2) 6) (payload b3))))
                                  (decode_from e r3)
                        else on_error e (decode_from e r2)
                    end
                  else on_error e (decode_from e r1)
              end
            else on_error e (decode_from e r0)
        end
      else on_error e (decode_from e r0)
  end.

(** [contents.decode("utf-8")]: [None] stands for [UnicodeDecodeError]. *)
Definition decode (contents : bytes) : option str :=
  decode_from Strict (map Byte.to_N contents).

(** [contents.decode("utf-8", errors="ignore")] *)
Definition decode_ignore (contents : bytes) : str :=
  default [] (decode_from Ignore (map Byte.to_N contents)).

Definition of_N (l : list N) : bytes :=
  omap Byte.of_N l.

End Utf8.

Import Utf8.

(** ** [hashlib.sha256(contents).hexdigest()] *)

Module Hashlib.

(** 32-bit words are numbers below [2 ^ 32]; sums wrap around. *)
Definition wrap (x : N) : N := x mod 2 ^ 32.

Definition rotr (n x : N) : N :=
  wrap (N.lor (N.shiftr x n) (N.shiftl x (32 - n))).

Definition ch (x y z : N) : N :=
  N.lxor (N.land x y) (N.land (N.lxor x 0xffffffff) z).

Definition maj (x y z : N) : N :=
  N.lxor (N.lxor (N.land x y) (N.land x z)) (N.land y z).

Definition big_sigma0 (x : N) : N := N.lxor (N.lxor (rotr 2 x) (rotr 13 x)) (rotr 22 x).
Definition big_sigma1 (x : N) : N := N.lxor (N.lxor (rotr 6 x) (rotr 11 x)) (rotr 25 x).
Definition small_sigma0 (x : N) : N := N.lxor (N.lxor (rotr 7 x) (rotr 18 x)) (N.shiftr x 3).
Definition small_sigma1 (x : N) : N := N.lxor (N.lxor (rotr 17 x) (rotr 19 x)) (N.shiftr x 10).

(** The constants of the standard are the first 32 bits of the fractional
    parts of roots of the first primes: cube roots of the first 64 primes
    for the rounds, square roots of the first 8 for the initial hash. *)
Definition is_prime (n : N) : bool :=
  forallb (fun d => negb (n mod N.of_nat d =? 0)) (seq 2 (N.to_nat n - 2)).

Definition first_primes (count : nat) : list N :=
  take count (filter (fun n => is_prime n) (map N.of_nat (seq 2 310))).

(** The largest [r] below [2 ^ bits] with [r ^ k <= n], found bit by bit. *)
Fixpoint integer_root (k n : N) (bits : nat) (r : N) : N :=
  match bits with
  | O => r
  | S bits' =>
      let r' := r + 2 ^ N.of_nat bits' in
      integer_root k n bits' (if r' ^ k <=? n then r' else r)
  end.

Definition root_fraction (k p : N) : N :=
  wrap (integer_root k (p * 2 ^ (32 * k)) 40 0).

Definition round_constants : list N :=
  Eval vm_compute in map (root_fraction 3) (first_primes 64).

Definition initial_hash : list N :=
  Eval vm_compute in map (root_fraction 2) (first_primes 8).

(** The message with its padding: a byte 0x80, zeros up to 56 modulo 64,
    and the length in bits on eight bytes, big endian. *)
Definition big_endian (width : nat) (x : N) : list N :=
  map (fun i => N.shiftr x (8 * N.of_nat i) mod 256) (rev (seq 0 width)).

Definition pad (msg : list N) : list N :=
  let len := N.of_nat (length msg) in
  let zeros := N.to_nat ((64 + 55 - len mod 64) mod 64) in
  msg ++ [0x80] ++ repeat 0 zeros ++ big_endian 8 (8 * len).

Fixpoint words (count : nat) (l : list N) : list N :=
  match count, l with
  | S count', a :: b :: c :: d :: rest =>
      N.lor (N.shiftl a 24) (N.lor (N.shiftl b 16) (N.lor (N.shiftl c 8) d))
      :: words count' rest
  | _, _ => []
  end.

(** One round: the schedule is a window of the last sixteen words. *)
Definition round (st : list N * list N) (k : N) : list N * list N :=
  match st with
  | ([a; b; c; d; e; f; g; h],
     (w0 :: w1 :: _ :: _ :: _ :: _ :: _ :: _ :: _ :: w9 :: _ :: _ :: _ :: _ :: w14 :: _) as w) =>
      let t1 := h + big_sigma1 e + ch e f g + k + w0 in
      let t2 := big_sigma0 a + maj a b c in
      ([wrap (t1 + t2); a; b; c; wrap (d + t1); e; f; g],
       tl w ++ [wrap (small_sigma1 w14 + w9 + small_sigma0 w1 + w0)])
  | _ => st
  end.

Definition compress (hash block : list N) : list N :=
  let '(regs, _) := fold_left round round_constants (hash, block) in
  map (fun p => wrap (fst p + snd p)) (combine hash regs).

Fixpoint blocks (count : nat) (ws hash : list N) : list N :=
  match count with
  | O => hash
  | S count' => blocks count' (skipn 16 ws) (compress hash (firstn 16 ws))
  end.

Definition digest_words (msg : list N) : list N :=
  let padded := pad msg in
  let n := Nat.div (length padded) 64 in
  blocks n (words (16 * n) padded) initial_hash.

Definition hex_of_word (w : N) : str :=
  map (fun i => hexdigit (N.shiftr w (4 * N.of_nat i) mod 16)) (rev (seq 0 8)).

Definition sha256_hexdigest (contents : bytes) : str :=
  flat_map hex_of_word (digest_words (map Byte.to_N contents)).

End Hashlib.

Import Hashlib.

(** ** [datetime.now()] and its two formats *)

Module Datetime.

(** The fields of a [datetime]; Python keeps each in its range (year 1 to
    9999, month 1 to 12, ..., microsecond below a million). *)
Record datetime := {
  year : N; month : N; day : N;
  hour : N; minute : N; second : N; microsecond : N
}.

Fixpoint drop_zeros (s : str) : str :=
  match s with
  | c :: (_ :: _) as rest => if c =? 48 then drop_zeros rest else s
  | _ => s
  end.

(** [strftime('%Y%m%d%H%M%S')]: the year is not padded, the other fields
    have two digits. *)
Definition strftime (d : datetime) : str :=
  drop_zeros (zfill 4 (year d)) ++ zfill 2 (month d) ++ zfill 2 (day d)
  ++ zfill 2 (hour d) ++ zfill 2 (minute d) ++ zfill 2 (second d).

(** [isoformat()]: the fraction is left out when it is zero. *)
Definition isoformat (d : datetime) : str :=
  zfill 4 (year d) ++ lit "-" ++ zfill 2 (month d) ++ lit "-" ++ zfill 2 (day d)
  ++ lit "T" ++ zfill 2 (hour d) ++ lit ":" ++ zfill 2 (minute d)
  ++ lit ":" ++ zfill 2 (second d)
  ++ (if microsecond d =? 0 then [] else lit "." ++ zfill 6 (microsecond d)).

End Datetime.

Import Datetime.

(** ** [os.path.join] *)

(** [posixpath.join] of two components.  Under Windows [os.path.join] is
    [ntpath.join], which puts a backslash between the components. *)
Definition path_join (a b : str) : str :=
  if startswith (lit "/") b then b
  else if eqb a [] || startswith (lit "/") (rev a) then a ++ b
  else a ++ lit "/" ++ b.

(** ** The [DataFrame] operations of the export and listing endpoints *)

Module Pandas.

Record DataFrame := {
  columns : list str;
  rows : list (list str)
}.

(** Position of a column label. *)
Fixpoint get_loc (label : str) (cols : list str) : option nat :=
  match cols with
  | [] => None
  | c :: cols' => if eqb c label then Some O else S <$> get_loc label cols'
  end.

(** [label in df.columns] *)
Definition has_column (label : str) (df : DataFrame) : bool :=
  bool_decide (is_Some (get_loc label (columns df))).

(** [df[labels]] with a list of labels; [None] stands for [KeyError]. *)
Definition getitem (labels : list str) (df : DataFrame) : option DataFrame :=
  locs ← mapM (fun l => get_loc l (columns df)) labels;
  Some {| columns := labels;
          rows := map (fun r => map (fun i => nth i r []) locs) (rows df) |}.

(** [df[label] = value] with a scalar: the column is overwritten, or
    added last when the frame has none of that label. *)
Definition setitem (label value : str) (df : DataFrame) : DataFrame :=
  match get_loc label (columns df) with
  | Some i => {| columns := columns df;
                 rows := map (fun r => <[i := value]> r) (rows df) |}
  | None => {| columns := columns df ++ [label];
               rows := map (fun r => r ++ [value]) (rows df) |}
  end.

(** [pd.concat(dfs, ignore_index=True)] for frames with the same columns
    in the same order, which is how the source calls it. *)
Definition concat (dfs : list DataFrame) : DataFrame :=
  {| columns := from_option columns [] (head dfs);
     rows := flat_map rows dfs |}.

(** [df.drop(columns=[label])]; [None] stands for [KeyError]. *)
Definition drop (label : str) (df : DataFrame) : option DataFrame :=
  i ← get_loc label (columns df);
  Some {| columns := delete i (columns df);
          rows := map (delete i) (rows df) |}.

(** Rows in descending order of the cell at position [i]. *)
Definition descending (i : nat) : relation (list str) :=
  fun r1 r2 => leb (nth i r2 []) (nth i r1 []) = true.

Global Instance descending_dec i r1 r2 : Decision (descending i r1 r2).
Proof. unfold descending. apply _. Defined.

(** [df.sort_values(label, ascending=False)] on a column of strings.
    pandas promises no order among rows of equal key (its default sort is
    not stable), so nothing below depends on that order. *)
Definition sort_values_descending (label : str) (df : DataFrame) : option DataFrame :=
  i ← get_loc label (columns df);
  Some {| columns := columns df; rows := merge_sort (descending i) (rows df) |}.

(** [df.to_dict(orient="records")] *)
Definition to_dict_records (df : DataFrame) : list (list (str * str)) :=
  map (fun r => combine (columns df) r) (rows df).

End Pandas.

Import Pandas.

(** ** The log files and the requests *)

(** A row of a log file; the fields are the columns of lines 47-51. *)
Record Row := {
  upload_id : str;
  timestamp : str;
  filename : str;
  sha256 : str;
  prop_id : str;
  status : str;
  file_path : str
}.

Definition PENDING : str := lit "PENDING".
Definition APPROVED : str := lit "APPROVED".
Definition ROLLED_BACK : str := lit "ROLLED_BACK".
Definition UNKNOWN : str := lit "UNKNOWN".

Definition LOG_COLUMNS : list str :=
  [ lit "upload_id"; lit "timestamp"; lit "filename"; lit "sha256";
    lit "prop_id"; lit "status"; lit "file_path" ].

Definition cells (r : Row) : list str :=
  [ upload_id r; timestamp r; filename r; sha256 r; prop_id r; status r; file_path r ].

(** [pd.read_csv] of a log file, every cell kept as the text that is in
    the file (pandas would give each column a type, see the conventions
    above). *)
Definition read_csv (log : list Row) : DataFrame :=
  {| columns := LOG_COLUMNS; rows := map cells log |}.

(** The mask [df["upload_id"] == upload_id]. *)
Definition has_id (x : str) (r : Row) : bool := eqb (upload_id r) x.

(** The row with another status: [df.loc[mask, "status"] = value]. *)
Definition with_status (value : str) (r : Row) : Row :=
  {| upload_id := upload_id r; timestamp := timestamp r; filename := filename r;
     sha256 := sha256 r; prop_id := prop_id r; status := value;
     file_path := file_path r |}.

(** The three log files and the upload directory (files by path). *)
Record State := {
  STAGING_FILE : list Row;
  AUDIT_FILE : list Row;
  ROLLBACK_FILE : list Row;
  files : gmap str bytes
}.

Definition set_STAGING_FILE (df : list Row) (s : State) : State :=
  {| STAGING_FILE := df; AUDIT_FILE := AUDIT_FILE s;
     ROLLBACK_FILE := ROLLBACK_FILE s; files := files s |}.

Definition set_AUDIT_FILE (df : list Row) (s : State) : State :=
  {| STAGING_FILE := STAGING_FILE s; AUDIT_FILE := df;
     ROLLBACK_FILE := ROLLBACK_FILE s; files := files s |}.

Definition set_ROLLBACK_FILE (df : list Row) (s : State) : State :=
  {| STAGING_FILE := STAGING_FILE s; AUDIT_FILE := AUDIT_FILE s;
     ROLLBACK_FILE := df; files := files s |}.

Definition set_files (fs : gmap str bytes) (s : State) : State :=
  {| STAGING_FILE := STAGING_FILE s; AUDIT_FILE := AUDIT_FILE s;
     ROLLBACK_FILE := ROLLBACK_FILE s; files := fs |}.

(** The state after start-up on an empty installation (lines 42-53): the
    three logs have their header and no row. *)
Definition initial : State :=
  {| STAGING_FILE := []; AUDIT_FILE := []; ROLLBACK_FILE := []; files := ∅ |}.

(** What a handler answers: a JSON body, an [HTTPException], or another
    exception that escapes the handler (the [OSError] of a failed write). *)
Inductive response (A : Type) : Type :=
| Returned (body : A)
| HTTPException (status_code : N) (detail : str)
| Raised.

Arguments Returned {A} body.
Arguments HTTPException {A} status_code detail.
Arguments Raised {A}.

Definition dict := list (str * str).

(** The answer to a request for an upload id that is not in the log
    consulted: status 404. *)
Definition NotFound {A} (r : response A) : Prop :=
  exists detail, r = HTTPException 404 detail.

Definition succeeded {A} (r : response A) : bool :=
  match r with Returned _ => true | _ => false end.

Module UploadFile.
Record t := { filename : str; file : bytes }.
End UploadFile.

(** What happens to [open(file_path, "wb")] followed by
    [shutil.copyfileobj]: the copy completes, or opening raises, or the
    copy raises after [n] bytes have reached the file. *)
Inductive write_outcome :=
| Written
| OpenFailed
| CopyFailed (n : nat).

Global Instance write_outcome_eq_dec : EqDecision write_outcome.
Proof. solve_decision. Defined.

(** What the environment supplies to one upload request, in the order in
    which the handler asks for it. *)
Record Env := {
  now_path : datetime;
  disk : write_outcome;
  uuid4 : str;
  now_row : datetime;
  now_body : datetime
}.

Definition write_file (path : str) (data : bytes) (w : write_outcome)
    (fs : gmap str bytes) : gmap str bytes * bool :=
  match w with
  | Written => (<[path := data]> fs, true)
  | OpenFailed => (fs, false)
  | CopyFailed n => (<[path := take n data]> fs, false)
  end.

(** The loop of lines 93-99 (and 141-147), over [text.splitlines()]. *)
Definition is_marker_line (line : str) : bool :=
  contains (lit "prop_id") (lower line)
  || contains (lit "property_id") (lower line)
  || contains (lit "PropertyID") line.

Fixpoint scan_lines (lines : list str) : str :=
  match lines with
  | [] => UNKNOWN
  | line :: lines' =>
      if is_marker_line line then
        let parts := split 58 line in
        if bool_decide (1 < length parts)%nat then strip (nth 1 parts [])
        else scan_lines lines'
      else scan_lines lines'
  end.

(** A line at which the loop stops: a marker line with a colon in it. *)
Definition is_value_line (line : str) : bool :=
  is_marker_line line && bool_decide (58 ∈ line).

Definition extract_prop_id (contents : bytes) : str :=
  let text := decode_ignore contents in
  scan_lines (splitlines text).

Section Server.

(** The directory of [main.py]. *)
Variable BASE_DIR : str.

Definition UPLOAD_DIR : str := path_join BASE_DIR (lit "uploads").

(** Lines 79-86 and 127-134: the upload is written under [UPLOAD_DIR]
    and read back. *)
Definition upload_path (file : UploadFile.t) (env : Env) : str :=
  path_join UPLOAD_DIR
    (strftime (now_path env) ++ lit "_" ++ UploadFile.filename file).

Definition save_upload (file : UploadFile.t) (env : Env) (s : State)
    : str * option bytes * State :=
  let file_path := upload_path file env in
  let '(fs, ok) := write_file file_path (UploadFile.file file) (disk env) (files s) in
  (file_path, if ok then fs !! file_path else None, set_files fs s).

(** [POST /api/sync/stage] *)
Definition stage_file (file : UploadFile.t) (env : Env) (s : State)
    : response dict * State :=
  let '(file_path, saved, s) := save_upload file env s in
  match saved with
  | None => (Raised, s)
  | Some contents =>
      let sha256 := sha256_hexdigest contents in
      let prop_id := extract_prop_id contents in
      let upload_id := uuid4 env in
      let df := STAGING_FILE s in
      let new_row :=
        {| upload_id := upload_id;
           timestamp := isoformat (now_row env);
           filename := UploadFile.filename file;
           sha256 := sha256;
           prop_id := prop_id;
           status := PENDING;
           file_path := file_path |} in
      let df := df ++ [new_row] in
      (Returned
         [ (lit "upload_id", upload_id);
           (lit "timestamp", isoformat (now_body env));
           (lit "filename", UploadFile.filename file);
           (lit "sha256", sha256);
           (lit "prop_id", prop_id);
           (lit "status", PENDING) ],
       set_STAGING_FILE df s)
  end.

(** [POST /api/sync/import] *)
Definition direct_import (file : UploadFile.t) (env : Env) (s : State)
    : response dict * State :=
  let '(file_path, saved, s) := save_upload file env s in
  match saved with
  | None => (Raised, s)
  | Some contents =>
      let sha256 := sha256_hexdigest contents in
      let prop_id := extract_prop_id contents in
      let upload_id := uuid4 env in
      let df := AUDIT_FILE s in
      let new_row :=
        {| upload_id := upload_id;
           timestamp := isoformat (now_row env);
           filename := UploadFile.filename file;
           sha256 := sha256;
           prop_id := prop_id;
           status := APPROVED;
           file_path := file_path |} in
      let df := df ++ [new_row] in
      (Returned
         [ (lit "status", lit "success");
           (lit "filename", UploadFile.filename file);
           (lit "prop_id", prop_id);
           (lit "sha256", sha256);
           (lit "risk_flag", lit "none") ],
       set_AUDIT_FILE df s)
  end.

End Server.

(** [GET /api/sync/staging-data] *)
Definition get_staging_data (s : State) : response (list dict) :=
  let df := read_csv (STAGING_FILE s) in
  match getitem [ lit "upload_id"; lit "timestamp"; lit "filename";
                  lit "sha256"; lit "prop_id"; lit "status" ] df with
  | Some safe_data => Returned (to_dict_records safe_data)
  | None => Raised
  end.

(** [POST /api/sync/approve/{upload_id}].  [row] is taken from the frame
    before line 222 overwrites the status, and boolean indexing copies, so
    the rows appended to the audit log still have the status they had in
    the staging log when the request arrived.  The two [to_csv] calls of
    lines 223 and 229 are taken to succeed both. *)
Definition approve_upload (upload_id : str) (s : State) : response dict * State :=
  let df := STAGING_FILE s in
  let row := filter (has_id upload_id) df in
  match row with
  | [] => (HTTPException 404 (lit "Upload not found"), s)
  | _ :: _ =>
      let df := map (fun r => if has_id upload_id r then with_status APPROVED r else r) df in
      let s := set_STAGING_FILE df s in
      let audit_df := AUDIT_FILE s in
      let approved_row := row in
      let audit_df := audit_df ++ approved_row in
      (Returned [ (lit "status", lit "success");
                  (lit "message", lit "Upload approved and processed") ],
       set_AUDIT_FILE audit_df s)
  end.

(** [POST /api/sync/rollback].  The two [to_csv] calls of lines 246 and
    251 are taken to succeed both. *)
Definition rollback_upload (upload_id : str) (s : State) : response dict * State :=
  let audit_df := AUDIT_FILE s in
  let row := filter (has_id upload_id) audit_df in
  match row with
  | [] => (HTTPException 404 (lit "Upload not found in audit log"), s)
  | _ :: _ =>
      let audit_df := filter (fun r => negb (has_id upload_id r)) audit_df in
      let s := set_AUDIT_FILE audit_df s in
      let rollback_df := ROLLBACK_FILE s in
      let rollback_df := rollback_df ++ row in
      (Returned [ (lit "status", lit "success");
                  (lit "message", lit "Upload has been rolled back successfully") ],
       set_ROLLBACK_FILE rollback_df s)
  end.

(** [GET /api/sync/export]: the frame written to [export_temp.csv]. *)
Definition export_logs (s : State) : response DataFrame :=
  let staging_df := read_csv (STAGING_FILE s) in
  let audit_df := read_csv (AUDIT_FILE s) in
  let rollback_df := read_csv (ROLLBACK_FILE s) in
  let staging_df := setitem (lit "log_type") (lit "staged") staging_df in
  let audit_df := setitem (lit "log_type") (lit "approved") audit_df in
  let rollback_df := setitem (lit "log_type") (lit "rolled_back") rollback_df in
  let combined_df := concat [staging_df; audit_df; rollback_df] in
  let dropped :=
    if has_column (lit "file_path") combined_df
    then drop (lit "file_path") combined_df
    else Some combined_df in
  match dropped ≫= sort_values_descending (lit "timestamp") with
  | Some combined_df => Returned combined_df
  | None => Raised
  end.

(** ** attached_assets/sync_rollback_api.py *)

Module SyncRollbackApi.

(** This module checks that its log files exist: [None] is a missing
    file. *)
Record Logs := {
  AUDIT_FILE : option (list Row);
  ROLLBACK_FILE : option (list Row)
}.

(** [POST /rollback] *)
Definition rollback (upload_id : str) (l : Logs) : response dict * Logs :=
  match AUDIT_FILE l with
  | None => (HTTPException 404 (lit "Audit log not found"), l)
  | Some audit_df =>
      let match_ := filter (has_id upload_id) audit_df in
      match match_ with
      | [] => (HTTPException 404 (lit "Upload ID not found in audit log"), l)
      | _ :: _ =>
          let audit_df := filter (fun r => negb (has_id upload_id r)) audit_df in
          let rollback_log :=
            match ROLLBACK_FILE l with
            | Some old => old ++ match_
            | None => match_
            end in
          (Returned [ (lit "status", lit "rolled back");
                      (lit "upload_id", upload_id) ],
           {| AUDIT_FILE := Some audit_df; ROLLBACK_FILE := Some rollback_log |})
      end
  end.

End SyncRollbackApi.

(** ** Sequences of requests *)

Inductive request :=
| Stage (file : UploadFile.t) (env : Env)
| Import (file : UploadFile.t) (env : Env)
| Approve (upload_id : str)
| Rollback (upload_id : str).

Definition ids (log : list Row) : list str := map upload_id log.


(** The upload id and the status of a row: the cell the handlers compare
    and the cell they assign. *)
Definition id_status (r : Row) : str * str := (upload_id r, status r).

(** A log seen through these two cells, row by row. *)
Definition statuses (log : list Row) : list (str * str) := map id_status log.

(** The three logs seen that way. *)
Definition log_view (s : State)
    : list (str * str) * list (str * str) * list (str * str) :=
  (statuses (STAGING_FILE s), statuses (AUDIT_FILE s), statuses (ROLLBACK_FILE s)).



(** A row of the export: the cells of the log row but the path, and the
    name of the log it comes from. *)
Definition export_row (log_type : str) (r : Row) : list str :=
  [ upload_id r; timestamp r; filename r; sha256 r; prop_id r; status r; log_type ].

(** A record of the staging listing. *)
Definition safe_record (r : Row) : dict :=
  [ (lit "upload_id", upload_id r); (lit "timestamp", timestamp r);
    (lit "filename", filename r); (lit "sha256", sha256 r);
    (lit "prop_id", prop_id r); (lit "status", status r) ].

(** The row with another stored path. *)
Definition with_file_path (value : str) (r : Row) : Row :=
  {| upload_id := upload_id r; timestamp := timestamp r; filename := filename r;
     sha256 := sha256 r; prop_id := prop_id r; status := status r;
     file_path := value |}.

Section Workflow.

Variable BASE_DIR : str.

(** The row an upload request writes when the upload has been saved. *)
Definition new_row (st : str) (file : UploadFile.t) (env : Env) : Row :=
  {| upload_id := uuid4 env;
     timestamp := isoformat (now_row env);
     filename := UploadFile.filename file;
     sha256 := sha256_hexdigest (UploadFile.file file);
     prop_id := extract_prop_id (UploadFile.file file);
     status := st;
     file_path := upload_path BASE_DIR file env |}.

Definition handle (q : request) (s : State) : response dict * State :=
  match q with
  | Stage file env => stage_file BASE_DIR file env s
  | Import file env => direct_import BASE_DIR file env s
  | Approve x => approve_upload x s
  | Rollback x => rollback_upload x s
  end.

Definition step (s : State) (q : request) : State := snd (handle q s).

Definition run (qs : list request) (s : State) : State := fold_left step qs s.



End Workflow.

(** ** Concrete requests used in the examples below *)

Module Sample.

Definition base : str := lit "/srv/sync/server".

Definition noon : datetime :=
  {| year := 2025; month := 3; day := 14; hour := 12; minute := 0;
     second := 0; microsecond := 250 |}.

Definition env (id : string) : Env :=
  {| now_path := noon; disk := Written; uuid4 := lit id;
     now_row := noon; now_body := noon |}.

Definition parcel1 : UploadFile.t :=
  {| UploadFile.filename := lit "parcel1.xml";
     UploadFile.file := blit "prop_id: 4500" |}.

(** The same text after a byte that is not valid UTF-8. *)
Definition parcel_ff : UploadFile.t :=
  {| UploadFile.filename := lit "parcel2.xml";
     UploadFile.file := "255"%byte :: blit "prop_id: 45" |}.

(** Two marker lines with a value each. *)
Definition parcel_two_ids : UploadFile.t :=
  {| UploadFile.filename := lit "parcel3.txt";
     UploadFile.file := blit "owner: Smith" ++ ["010"%byte]
                        ++ blit "prop_id: 1" ++ ["010"%byte]
                        ++ blit "property_id: 2" |}.

Definition u1 : str := lit "6f1c0c4e-0d0a-4b7e-9c55-0a1b2c3d4e5f".

Definition env1 : Env := env "6f1c0c4e-0d0a-4b7e-9c55-0a1b2c3d4e5f".

(** A request whose copy to disk breaks after five bytes. *)
Definition env_disk_full : Env :=
  {| now_path := noon; disk := CopyFailed 5; uuid4 := lit "0b9d7a2c-5e1f-4c3a-8f6d-7e8f9a0b1c2d";
     now_row := noon; now_body := noon |}.

(** A property id with a line feed inside. *)
Definition parcel_two_lines : UploadFile.t :=
  {| UploadFile.filename := lit "parcel4.xml";
     UploadFile.file := blit "12" ++ ["010"%byte] ++ blit "34" |}.

(** The state after [parcel1.xml] has been staged on a fresh server. *)
Definition staged : State := step base initial (Stage parcel1 env1).

(** The state after [parcel1.xml] has been imported directly. *)
Definition imported : State := step base initial (Import parcel1 env1).

(** The state after [parcel1.xml] has been staged and [parcel3.txt] has
    been imported directly. *)
Definition staged_and_imported : State :=
  run base [ Stage parcel1 env1; Import parcel_two_ids (env "second-upload") ]
    initial.

(** The row that staging [parcel1.xml] writes. *)
Definition row1 : Row :=
  {| upload_id := u1;
     timestamp := lit "2025-03-14T12:00:00.000250";
     filename := lit "parcel1.xml";
     sha256 := lit "1a2d66a075f60d302bbf4a4fb4d81083771809017d4dc26a4ca9d38433e6c650";
     prop_id := lit "4500";
     status := PENDING;
     file_path := lit "/srv/sync/server/uploads/20250314120000_parcel1.xml" |}.

(** [staged] with the property id of its row in the form in which a
    number is written back when it stands beside a missing value. *)
Definition staged_reread : State :=
  set_STAGING_FILE
    [ {| upload_id := upload_id row1; timestamp := timestamp row1;
         filename := filename row1; sha256 := sha256 row1;
         prop_id := lit "4500.0"; status := status row1;
         file_path := file_path row1 |} ]
    staged.

End Sample.

(** [d.get(key)] on a JSON body. *)
Fixpoint dict_get (key : str) (d : dict) : option str :=
  match d with
  | [] => None
  | (k, v) :: d' => if eqb k key then Some v else dict_get key d'
  end.

(** ** The diff preview of server/main.py *)

Module Diff.

Record FieldDiff := { field : str; current : N; proposed : N; delta : N }.

Record Body := { prop_id : str; fields : list FieldDiff }.

End Diff.

(** [GET /api/sync/diff/{upload_id}]: the property id is read from the
    first staging row of the upload id ([row.iloc[0]]); the three field
    comparisons are the fixed demonstration data of lines 187-206. *)
Definition get_diff (upload_id : str) (s : State) : response Diff.Body :=
  let df := STAGING_FILE s in
  let row := filter (has_id upload_id) df in
  match row with
  | [] => HTTPException 404 (lit "Upload not found")
  | first :: _ =>
      let prop_id := prop_id first in
      let fields :=
        [ {| Diff.field := lit "land_value"; Diff.current := 150000;
             Diff.proposed := 165000; Diff.delta := 15000 |};
          {| Diff.field := lit "building_value"; Diff.current := 320000;
             Diff.proposed := 335000; Diff.delta := 15000 |};
          {| Diff.field := lit "tax_due"; Diff.current := 4750;
             Diff.proposed := 5000; Diff.delta := 250 |} ] in
      Returned {| Diff.prop_id := prop_id; Diff.fields := fields |}
  end.

(** ** attached_assets/sync_import_api.py *)

Module SyncImportApi.

Definition AUTHORIZED_TOKEN : str := lit "secure-sync-token".

(** [verify_token], on the token of the bearer credentials. *)
Definition verify_token (credentials : str) : response unit :=
  if negb (eqb credentials AUTHORIZED_TOKEN)
  then HTTPException 403 (lit "Invalid or missing token")
  else Returned tt.

(** [log_sync]: one entry, ended by a newline, is appended to
    [sync_import_log.csv]; [log] is the text written to that file so far
    (empty when the file does not exist yet) and [now] is
    [datetime.utcnow()]. *)
Definition log_sync (now : datetime) (file_name prop_id sha256_hash risk : str)
    (log : str) : str :=
  let log_entry :=
    isoformat now ++ lit ", " ++ file_name ++ lit ", " ++ prop_id ++ lit ", "
    ++ sha256_hash ++ lit ", " ++ risk ++ [0x0A] in
  log ++ log_entry.

(** An element as [root.iter()] yields it: its tag and its text, which is
    [None] for an element without text. *)
Record Element := { tag : str; text : option str }.

(** Truth value of an optional string: [None] and the empty string are
    false. *)
Definition truthy (o : option str) : bool :=
  match o with
  | Some (_ :: _) => true
  | _ => false
  end.

(** The condition of line 33. *)
Definition mentions_prop_id (elem : Element) : bool :=
  contains (lit "prop_id") (lower (tag elem))
  || (truthy (text elem)
      && match text elem with
         | Some t => contains (lit "prop_id") (lower t)
         | None => false
         end).

(** The loop of lines 32-34 over the elements in document order.  At the
    first element that mentions the property id the function returns
    [elem.text.strip()]; when that element has no text, the call of
    [strip] on [None] raises, the handler of line 35 catches it and the
    function returns [None]. *)
Fixpoint first_prop_id (elems : list Element) : option str :=
  match elems with
  | [] => None
  | elem :: elems' =>
      if mentions_prop_id elem then strip <$> text elem
      else first_prop_id elems'
  end.

Record Body := {
  status : str;
  filename : str;
  prop_id : option str;
  sha256 : str;
  risk_flag : str
}.

Section Xml.

(** The XML parser is not part of the repository:
    [elements contents] stands for [ET.fromstring(contents).iter()], the
    elements of the document in document order, and is [None] when the
    parser raises. *)
Variable elements : str → option (list Element).

Definition extract_prop_id_from_xml (contents : str) : option str :=
  match elements contents with
  | Some elems => first_prop_id elems
  | None => None
  end.

(** [POST /sync/import] *)
Definition sync_import (file : UploadFile.t) (credentials : str) (now : datetime)
    (log : str) : response Body * str :=
  match verify_token credentials with
  | HTTPException status_code detail => (HTTPException status_code detail, log)
  | Raised => (Raised, log)
  | Returned _ =>
      let contents := UploadFile.file file in
      let sha256 := sha256_hexdigest contents in
      let prop_id :=
        match decode contents with
        | Some text => extract_prop_id_from_xml text
        | None => None
        end in
      let risk := if negb (truthy prop_id) then lit "high" else lit "none" in
      let log :=
        log_sync now (UploadFile.filename file)
          (if truthy prop_id then default [] prop_id else UNKNOWN)
          sha256 risk log in
      (Returned {| status := lit "received";
                   filename := UploadFile.filename file;
                   prop_id := prop_id;
                   sha256 := sha256;
                   risk_flag := risk |},
       log)
  end.

End Xml.

(** A stand-in for the parser, for the examples: every text is read as
    one element [<prop_id>] that holds the text. *)
Definition one_element (contents : str) : option (list Element) :=
  Some [ {| tag := lit "prop_id"; text := Some contents |} ].

End SyncImportApi.

(** * Checks of the library models against Python 3.11 *)

Example splitlines_crlf :
  splitlines (lit "a" ++ [0x0D; 0x0A] ++ lit "b" ++ [0x0D] ++ lit "c"
              ++ [0x0A; 0x0D] ++ lit "d" ++ [0x0A])
  = [lit "a"; lit "b"; lit "c"; []; lit "d"].
Proof. reflexivity. Qed.

Example splitlines_unicode_breaks :
  splitlines (lit "a" ++ [0x0B] ++ lit "b" ++ [0x1E] ++ lit "c" ++ [0x85]
              ++ lit "d" ++ [0x2028] ++ lit "e")
  = [lit "a"; lit "b"; lit "c"; lit "d"; lit "e"].
Proof. reflexivity. Qed.

Example split_colons :
  split 58 (lit "prop_id: 45:67") = [lit "prop_id"; lit " 45"; lit "67"].
Proof. reflexivity. Qed.

Example strip_spaces :
  strip ([0x1F; 0xA0] ++ lit " x y " ++ [0x09; 0x3000]) = lit "x y".
Proof. reflexivity. Qed.

Example lower_mixed : lower (lit "Prop_ID") = lit "prop_id".
Proof. reflexivity. Qed.

Example decode_ignore_samples :
  map (fun l => decode_ignore (of_N l))
    [ [255; 112; 114]; [97; 195; 169; 98]; [226; 130; 172]; [226; 130];
      [226; 40; 161]; [240; 159; 152; 128]; [240; 159; 152]; [240; 40; 140; 188];
      [192; 175]; [237; 160; 128]; [224; 128; 128; 120]; [244; 144; 128; 128];
      [240; 159; 65; 66]; [195]; [195; 40]; [240; 159; 152; 65]; [237; 160];
      [224; 159]; [240; 143]; [244; 143; 191; 191]; [245; 128]; [128; 97];
      [225; 128]; [241; 128; 128]; [241; 128; 65] ]
  = [ [112; 114]; [97; 233; 98]; [8364]; []; [40]; [128512]; []; [40]; []; [];
      [120]; []; [65; 66]; []; [40]; [65]; []; []; []; [1114111]; []; [97];
      []; []; [65] ].
Proof. reflexivity. Qed.

Example decode_strict_samples :
  map (fun l => decode (of_N l)) [ [97; 195; 169; 98]; [255; 112]; [226; 130] ]
  = [ Some [97; 233; 98]; None; None ].
Proof. reflexivity. Qed.

Example sha256_abc :
  sha256_hexdigest (blit "abc")
  = lit "ba7816bf8f01cfea414140de5dae2223b00361a396177a9cb410ff61f20015ad".
Proof. vm_compute. reflexivity. Qed.

Example sha256_empty :
  sha256_hexdigest []
  = lit "e3b0c44298fc1c149afbf4c8996fb92427ae41e4649b934ca495991b7852b855".
Proof. vm_compute. reflexivity. Qed.

Example sha256_two_blocks :
  sha256_hexdigest (repeat "a"%byte 70)
  = lit "6bd5e5034855a11241f0dee8fc72850ffd9955b28347a86428b5fa19119f6ad0".
Proof. vm_compute. reflexivity. Qed.

Example formats_of_a_date :
  let d := {| year := 999; month := 1; day := 2; hour := 3; minute := 4;
              second := 5; microsecond := 0 |} in
  let d' := {| year := 2024; month := 1; day := 2; hour := 3; minute := 4;
               second := 5; microsecond := 7 |} in
  strftime d = lit "9990102030405" /\ isoformat d = lit "0999-01-02T03:04:05"
  /\ isoformat d' = lit "2024-01-02T03:04:05.000007".
Proof. repeat split. Qed.

(** Staging [parcel1.xml], whose content is [prop_id: 4500]. *)
Example staged_parcel1 :
  STAGING_FILE Sample.staged = [Sample.row1]
  /\ AUDIT_FILE Sample.staged = [] /\ ROLLBACK_FILE Sample.staged = []
  /\ files Sample.staged !! file_path Sample.row1 = Some (blit "prop_id: 4500").
Proof. vm_compute. repeat split. Qed.

(** * The log tables under approve and rollback *)

Lemma has_id_spec x r : has_id x r ↔ upload_id r = x.
Proof. unfold has_id, eqb. by rewrite bool_decide_spec. Qed.

Lemma elem_of_ids x (log : list Row) :
  x ∈ ids log ↔ ∃ r, r ∈ log ∧ upload_id r = x.
Proof.
  unfold ids. rewrite list_elem_of_fmap. split.
  - intros (r & -> & Hr). by exists r.
  - intros (r & Hr & <-). by exists r.
Qed.

Lemma filter_has_id_nil x (log : list Row) :
  filter (has_id x) log = [] ↔ x ∉ ids log.
Proof.
  rewrite elem_of_ids. split.
  - intros Hnil (r & Hr & Hx).
    eapply filter_nil_not_elem_of; [exact Hnil| |exact Hr]. by apply has_id_spec.
  - intros Hno. apply elem_of_nil_inv. intros r [Hid Hr]%list_elem_of_filter.
    apply Hno. exists r. split; [done|by apply has_id_spec].
Qed.

Lemma ids_app (l1 l2 : list Row) : ids (l1 ++ l2) = ids l1 ++ ids l2.
Proof. apply fmap_app. Qed.

Lemma statuses_app (l1 l2 : list Row) :
  statuses (l1 ++ l2) = statuses l1 ++ statuses l2.
Proof. apply fmap_app. Qed.

(** Overwriting the status of the rows of one id keeps every id in place. *)
Lemma ids_mark x v (log : list Row) :
  ids (map (fun r => if has_id x r then with_status v r else r) log) = ids log.
Proof.
  induction log as [|r log IH]; [done|]. simpl. rewrite IH.
  by destruct (has_id x r).
Qed.

Lemma ids_filter_has_id x (log : list Row) y :
  y ∈ ids (filter (has_id x) log) ↔ y = x ∧ x ∈ ids log.
Proof.
  rewrite !elem_of_ids. split.
  - intros (r & [Hid Hr]%list_elem_of_filter & <-). apply has_id_spec in Hid.
    split; [done|]. by exists r.
  - intros (-> & r & Hr & Hx). exists r. split; [|done].
    apply list_elem_of_filter. split; [by apply has_id_spec|done].
Qed.

Lemma ids_filter_other x (log : list Row) y :
  y ∈ ids (filter (fun r => negb (has_id x r)) log) ↔ y ≠ x ∧ y ∈ ids log.
Proof.
  rewrite !elem_of_ids. split.
  - intros (r & [Hid Hr]%list_elem_of_filter & <-).
    apply negb_prop_elim in Hid. rewrite has_id_spec in Hid.
    split; [done|]. by exists r.
  - intros (Hne & r & Hr & <-). exists r. split; [|done].
    apply list_elem_of_filter. split; [|done].
    apply negb_prop_intro. by rewrite has_id_spec.
Qed.

(** What [approve_upload] does, as one equation for each outcome. *)
Lemma approve_upload_absent x s :
  x ∉ ids (STAGING_FILE s) →
  approve_upload x s = (HTTPException 404 (lit "Upload not found"), s).
Proof.
  intros Hx. apply filter_has_id_nil in Hx. unfold approve_upload. by rewrite Hx.
Qed.

Lemma approve_upload_present x s :
  x ∈ ids (STAGING_FILE s) →
  approve_upload x s =
    (Returned [ (lit "status", lit "success");
                (lit "message", lit "Upload approved and processed") ],
     {| STAGING_FILE :=
          map (fun r => if has_id x r then with_status APPROVED r else r) (STAGING_FILE s);
        AUDIT_FILE := AUDIT_FILE s ++ filter (has_id x) (STAGING_FILE s);
        ROLLBACK_FILE := ROLLBACK_FILE s;
        files := files s |}).
Proof.
  intros Hx. unfold approve_upload.
  destruct (filter (has_id x) (STAGING_FILE s)) as [|r rs] eqn:Hrow; [|done].
  by apply filter_has_id_nil in Hrow.
Qed.

(** What [rollback_upload] does, as one equation for each outcome. *)
Lemma rollback_upload_absent x s :
  x ∉ ids (AUDIT_FILE s) →
  rollback_upload x s = (HTTPException 404 (lit "Upload not found in audit log"), s).
Proof.
  intros Hx. apply filter_has_id_nil in Hx. unfold rollback_upload. by rewrite Hx.
Qed.

Lemma rollback_upload_present x s :
  x ∈ ids (AUDIT_FILE s) →
  rollback_upload x s =
    (Returned [ (lit "status", lit "success");
                (lit "message", lit "Upload has been rolled back successfully") ],
     {| STAGING_FILE := STAGING_FILE s;
        AUDIT_FILE := filter (fun r => negb (has_id x r)) (AUDIT_FILE s);
        ROLLBACK_FILE := ROLLBACK_FILE s ++ filter (has_id x) (AUDIT_FILE s);
        files := files s |}).
Proof.
  intros Hx. unfold rollback_upload.
  destruct (filter (has_id x) (AUDIT_FILE s)) as [|r rs] eqn:Hrow; [|done].
  by apply filter_has_id_nil in Hrow.
Qed.

(** * Upload requests *)

Section UploadFacts.

Variable BASE_DIR : str.

Lemma save_upload_written file env s :
  disk env = Written →
  save_upload BASE_DIR file env s =
    (upload_path BASE_DIR file env, Some (UploadFile.file file),
     set_files (<[upload_path BASE_DIR file env := UploadFile.file file]> (files s)) s).
Proof.
  intros Hw. unfold save_upload, write_file. rewrite Hw.
  by rewrite lookup_insert_eq.
Qed.

Lemma save_upload_failed file env s :
  disk env ≠ Written →
  ∃ fs,
    save_upload BASE_DIR file env s
    = (upload_path BASE_DIR file env, None, set_files fs s)
    ∧ ∀ p, p ≠ upload_path BASE_DIR file env → fs !! p = files s !! p.
Proof.
  intros Hw. unfold save_upload, write_file.
  destruct (disk env) as [| |n]; [done| |].
  - by exists (files s).
  - eexists. split; [done|]. intros p Hp. by rewrite lookup_insert_ne.
Qed.

Lemma stage_file_written file env s :
  disk env = Written →
  ∃ body,
    stage_file BASE_DIR file env s =
      (Returned body,
       {| STAGING_FILE := STAGING_FILE s ++ [new_row BASE_DIR PENDING file env];
          AUDIT_FILE := AUDIT_FILE s;
          ROLLBACK_FILE := ROLLBACK_FILE s;
          files := <[upload_path BASE_DIR file env := UploadFile.file file]> (files s) |}).
Proof.
  intros Hw. unfold stage_file. rewrite (save_upload_written _ _ _ Hw).
  eexists. reflexivity.
Qed.

Lemma stage_file_failed file env s :
  disk env ≠ Written →
  ∃ fs,
    stage_file BASE_DIR file env s = (Raised, set_files fs s)
    ∧ ∀ p, p ≠ upload_path BASE_DIR file env → fs !! p = files s !! p.
Proof.
  intros Hw. destruct (save_upload_failed file env s Hw) as (fs & Hsave & Hfs).
  exists fs. unfold stage_file. by rewrite Hsave.
Qed.

Lemma direct_import_written file env s :
  disk env = Written →
  ∃ body,
    direct_import BASE_DIR file env s =
      (Returned body,
       {| STAGING_FILE := STAGING_FILE s;
          AUDIT_FILE := AUDIT_FILE s ++ [new_row BASE_DIR APPROVED file env];
          ROLLBACK_FILE := ROLLBACK_FILE s;
          files := <[upload_path BASE_DIR file env := UploadFile.file file]> (files s) |}).
Proof.
  intros Hw. unfold direct_import. rewrite (save_upload_written _ _ _ Hw).
  eexists. reflexivity.
Qed.

Lemma direct_import_failed file env s :
  disk env ≠ Written →
  ∃ fs,
    direct_import BASE_DIR file env s = (Raised, set_files fs s)
    ∧ ∀ p, p ≠ upload_path BASE_DIR file env → fs !! p = files s !! p.
Proof.
  intros Hw. destruct (save_upload_failed file env s Hw) as (fs & Hsave & Hfs).
  exists fs. unfold direct_import. by rewrite Hsave.
Qed.

(** An upload request succeeds exactly when the write completes. *)
Lemma stage_file_succeeded file env s :
  succeeded (fst (stage_file BASE_DIR file env s)) = true ↔ disk env = Written.
Proof.
  split.
  - intros Hok. destruct (decide (disk env = Written)) as [|Hw]; [done|].
    destruct (stage_file_failed file env s Hw) as (fs & Heq & _).
    by rewrite Heq in Hok.
  - intros Hw. destruct (stage_file_written file env s Hw) as (body & Heq).
    by rewrite Heq.
Qed.

Lemma direct_import_succeeded file env s :
  succeeded (fst (direct_import BASE_DIR file env s)) = true ↔ disk env = Written.
Proof.
  split.
  - intros Hok. destruct (decide (disk env = Written)) as [|Hw]; [done|].
    destruct (direct_import_failed file env s Hw) as (fs & Heq & _).
    by rewrite Heq in Hok.
  - intros Hw. destruct (direct_import_written file env s Hw) as (body & Heq).
    by rewrite Heq.
Qed.

End UploadFacts.

(** * Approve *)

(** C1, as the code has it.  For an upload id found in the staging log,
    approve succeeds; the staging log keeps a row for every row it had, in
    the same place and with the same upload id, the rows of that id now
    with status APPROVED and the others with the status they had, so the
    record is NOT removed from staging; the audit log gains one row for
    each staging row of that id, with that upload id, after the rows it
    had; the rollback log and the stored files are not written. *)
Theorem approve_upload_marks_and_copies (s : State) (x : str) :
  x ∈ ids (STAGING_FILE s) →
  let s' := snd (approve_upload x s) in
  succeeded (fst (approve_upload x s)) = true
  ∧ Forall2 (fun r r' => upload_id r' = upload_id r
                         ∧ status r' = if has_id x r then APPROVED else status r)
            (STAGING_FILE s) (STAGING_FILE s')
  ∧ x ∈ ids (STAGING_FILE s')
  ∧ (∃ copies, ids (AUDIT_FILE s') = ids (AUDIT_FILE s) ++ copies
               ∧ copies ≠ []
               ∧ Forall (fun y => y = x) copies
               ∧ length copies = length (filter (has_id x) (STAGING_FILE s)))
  ∧ ROLLBACK_FILE s' = ROLLBACK_FILE s
  ∧ files s' = files s.
Proof.
  intros Hx s'. subst s'. rewrite (approve_upload_present x s Hx). simpl.
  split; [done|]. split; [|split; [|split; [|done]]].
  - clear Hx. induction (STAGING_FILE s) as [|r log IH]; simpl; constructor; [|exact IH].
    by destruct (has_id x r).
  - by rewrite ids_mark.
  - exists (ids (filter (has_id x) (STAGING_FILE s))).
    split; [apply ids_app|]. split; [|split].
    + intros Hnil. apply fmap_nil_inv in Hnil. by apply filter_has_id_nil in Hnil.
    + apply Forall_forall. intros y Hy. by apply ids_filter_has_id in Hy as [-> _].
    + apply length_map.
Qed.

Lemma approve_upload_marks_and_copies_witness :
  Sample.u1 ∈ ids (STAGING_FILE Sample.staged)
  ∧ Sample.u1 ∈ ids (STAGING_FILE (snd (approve_upload Sample.u1 Sample.staged)))
  ∧ ROLLBACK_FILE (snd (approve_upload Sample.u1 Sample.staged)) = [].
Proof.
  assert (Sample.u1 ∈ ids (STAGING_FILE Sample.staged)) as Hin
    by (vm_compute; left).
  split; [exact Hin|].
  pose proof (approve_upload_marks_and_copies Sample.staged Sample.u1 Hin) as H.
  simpl in H. destruct H as (_ & _ & Hkept & _ & Hroll & _).
  split; [exact Hkept|]. rewrite Hroll. reflexivity.
Defined.

(** C1 fails as stated: after approving the one staged upload, its row is
    still in the staging log (with status APPROVED), and the copy in the
    audit log has status PENDING. *)
Lemma approve_upload_keeps_staging_row :
  STAGING_FILE Sample.staged = [Sample.row1]
  ∧ STAGING_FILE (snd (approve_upload Sample.u1 Sample.staged))
    = [with_status APPROVED Sample.row1]
  ∧ AUDIT_FILE (snd (approve_upload Sample.u1 Sample.staged)) = [Sample.row1]
  ∧ status Sample.row1 = PENDING.
Proof. vm_compute. repeat split. Qed.

Lemma has_id_with_status x v r : has_id x (with_status v r) = has_id x r.
Proof. reflexivity. Qed.

(** Marking twice is marking once. *)
Lemma mark_idempotent x v (log : list Row) :
  let mark := fun r => if has_id x r then with_status v r else r in
  map mark (map mark log) = map mark log.
Proof.
  intros mark. rewrite map_map. apply map_ext. intros r. unfold mark.
  destruct (has_id x r) eqn:Hr; [|by rewrite Hr].
  by rewrite has_id_with_status, Hr.
Qed.

Lemma filter_mark x v (log : list Row) :
  filter (has_id x) (map (fun r => if has_id x r then with_status v r else r) log)
  = map (with_status v) (filter (has_id x) log).
Proof.
  induction log as [|r log IH]; [done|]. simpl.
  destruct (has_id x r) eqn:Hr.
  - rewrite (filter_cons_True _ (with_status v r))
      by (rewrite has_id_with_status, Hr; exact I).
    rewrite (filter_cons_True _ r) by (rewrite Hr; exact I).
    simpl. by rewrite IH.
  - rewrite !(filter_cons_False _ r) by (rewrite Hr; exact id).
    exact IH.
Qed.

Lemma approve_upload_not_found_iff x s :
  NotFound (fst (approve_upload x s)) ↔ x ∉ ids (STAGING_FILE s).
Proof.
  split.
  - intros [detail Hnf] Hx. rewrite (approve_upload_present x s Hx) in Hnf. done.
  - intros Hx. rewrite (approve_upload_absent x s Hx). by eexists.
Qed.

(** C3, as the code has it.  After a successful stage call has put x in
    the staging log, approve(x) succeeds and leaves x in the staging log;
    so a second approve(x) right after it succeeds as well: it leaves the
    staging log, the rollback log and the files as they are and appends the
    staging rows of x (status APPROVED) to the audit log once more.  Approve
    answers NotFound exactly when the id is not in the staging log. *)
Theorem approve_twice_succeeds (BASE_DIR : str) (file : UploadFile.t)
    (env : Env) (s : State) :
  succeeded (fst (stage_file BASE_DIR file env s)) = true →
  let x := uuid4 env in
  let s1 := snd (stage_file BASE_DIR file env s) in
  let s2 := snd (approve_upload x s1) in
  let s3 := snd (approve_upload x s2) in
  x ∈ ids (STAGING_FILE s1)
  ∧ succeeded (fst (approve_upload x s1)) = true
  ∧ x ∈ ids (STAGING_FILE s2)
  ∧ succeeded (fst (approve_upload x s2)) = true
  ∧ STAGING_FILE s3 = STAGING_FILE s2
  ∧ AUDIT_FILE s3 = AUDIT_FILE s2 ++ filter (has_id x) (STAGING_FILE s2)
  ∧ filter (has_id x) (STAGING_FILE s2) ≠ []
  ∧ Forall (fun r => status r = APPROVED) (filter (has_id x) (STAGING_FILE s2))
  ∧ ROLLBACK_FILE s3 = ROLLBACK_FILE s2
  ∧ files s3 = files s2
  ∧ (∀ s0 y, NotFound (fst (approve_upload y s0)) ↔ y ∉ ids (STAGING_FILE s0)).
Proof.
  intros Hok x s1 s2 s3.
  apply stage_file_succeeded in Hok.
  destruct (stage_file_written BASE_DIR file env s Hok) as (body & Hstage).
  assert (x ∈ ids (STAGING_FILE s1)) as H1.
  { subst s1. rewrite Hstage. simpl. rewrite ids_app.
    apply elem_of_app. right. simpl. left. }
  assert (x ∈ ids (STAGING_FILE s2)) as H2.
  { subst s2. rewrite (approve_upload_present x s1 H1). simpl. by rewrite ids_mark. }
  assert (filter (has_id x) (STAGING_FILE s2) ≠ []) as Hne.
  { intros Hnil. by apply filter_has_id_nil in Hnil. }
  split; [exact H1|]. split; [by rewrite (approve_upload_present x s1 H1)|].
  split; [exact H2|]. split; [by rewrite (approve_upload_present x s2 H2)|].
  subst s3. rewrite (approve_upload_present x s2 H2). simpl.
  split.
  { subst s2. rewrite (approve_upload_present x s1 H1). simpl.
    apply mark_idempotent. }
  split; [done|]. split; [exact Hne|]. split.
  { subst s2. rewrite (approve_upload_present x s1 H1). simpl.
    rewrite filter_mark. apply Forall_forall. intros r Hr.
    apply list_elem_of_In, in_map_iff in Hr. destruct Hr as (r0 & <- & _). done. }
  split; [done|]. split; [done|].
  intros s0 y. apply approve_upload_not_found_iff.
Qed.

Lemma approve_twice_succeeds_witness :
  succeeded (fst (stage_file Sample.base Sample.parcel1 Sample.env1 initial)) = true
  ∧ succeeded (fst (approve_upload Sample.u1
                     (snd (approve_upload Sample.u1
                            (snd (stage_file Sample.base Sample.parcel1
                                    Sample.env1 initial)))))) = true.
Proof.
  assert (succeeded (fst (stage_file Sample.base Sample.parcel1 Sample.env1 initial))
          = true) as Hok by (vm_compute; reflexivity).
  split; [exact Hok|].
  pose proof (approve_twice_succeeds Sample.base Sample.parcel1 Sample.env1
                initial Hok) as H.
  simpl in H. destruct H as (_ & _ & _ & H & _). exact H.
Defined.

(** C3 fails as stated: the second approve of the staged upload is
    answered with success, not with 404, and it adds a second row for the
    upload to the audit log. *)
Lemma second_approve_is_not_refused :
  let s2 := snd (approve_upload Sample.u1 Sample.staged) in
  fst (approve_upload Sample.u1 s2)
  = Returned [ (lit "status", lit "success");
               (lit "message", lit "Upload approved and processed") ]
  ∧ AUDIT_FILE s2 = [Sample.row1]
  ∧ AUDIT_FILE (snd (approve_upload Sample.u1 s2))
    = [Sample.row1; with_status APPROVED Sample.row1].
Proof. vm_compute. repeat split. Qed.

(** * Rollback *)

(** C5, as the code has it.  For an upload id found in the audit log,
    rollback succeeds and takes every row of that id out of the audit log,
    whose other rows stay in their order, each with its upload id and its
    status; the rollback log gains, after the rows it had, one row for each
    row taken out, with that upload id and with the status the row had in
    the audit log: the status is NOT set to ROLLED_BACK.  The staging log
    and the files are not written.  The stand-alone rollback of
    [sync_rollback_api.py] leaves the same upload ids with the same statuses
    in the two logs. *)
Theorem rollback_upload_moves_rows (s : State) (x : str) :
  x ∈ ids (AUDIT_FILE s) →
  let s' := snd (rollback_upload x s) in
  let l' := snd (SyncRollbackApi.rollback x
                   {| SyncRollbackApi.AUDIT_FILE := Some (AUDIT_FILE s);
                      SyncRollbackApi.ROLLBACK_FILE := Some (ROLLBACK_FILE s) |}) in
  succeeded (fst (rollback_upload x s)) = true
  ∧ statuses (AUDIT_FILE s')
    = statuses (filter (fun r => negb (has_id x r)) (AUDIT_FILE s))
  ∧ (x ∉ ids (AUDIT_FILE s'))
  ∧ statuses (ROLLBACK_FILE s')
    = statuses (ROLLBACK_FILE s) ++ statuses (filter (has_id x) (AUDIT_FILE s))
  ∧ filter (has_id x) (AUDIT_FILE s) ≠ []
  ∧ STAGING_FILE s' = STAGING_FILE s
  ∧ files s' = files s
  ∧ statuses <$> SyncRollbackApi.AUDIT_FILE l' = Some (statuses (AUDIT_FILE s'))
  ∧ statuses <$> SyncRollbackApi.ROLLBACK_FILE l' = Some (statuses (ROLLBACK_FILE s')).
Proof.
  intros Hx s' l'. subst s' l'. rewrite (rollback_upload_present x s Hx). simpl.
  assert (filter (has_id x) (AUDIT_FILE s) ≠ []) as Hne.
  { intros Hnil. by apply filter_has_id_nil in Hnil. }
  split; [done|]. split; [done|]. split.
  { rewrite ids_filter_other. intros [Hx' _]. done. }
  split; [apply statuses_app|]. split; [exact Hne|]. split; [done|]. split; [done|].
  unfold SyncRollbackApi.rollback. simpl.
  destruct (filter (has_id x) (AUDIT_FILE s)) as [|r rs] eqn:Hrow; [done|]. simpl.
  by split.
Qed.

Lemma rollback_upload_moves_rows_witness :
  Sample.u1 ∈ ids (AUDIT_FILE Sample.imported)
  ∧ Sample.u1 ∉ ids (AUDIT_FILE (snd (rollback_upload Sample.u1 Sample.imported))).
Proof.
  assert (Sample.u1 ∈ ids (AUDIT_FILE Sample.imported)) as Hin
    by (vm_compute; left).
  split; [exact Hin|].
  pose proof (rollback_upload_moves_rows Sample.imported Sample.u1 Hin) as H.
  cbv zeta in H. destruct H as (_ & _ & H & _). exact H.
Defined.

(** C5 fails as stated: the row that rollback moves to the rollback log
    still has status APPROVED. *)
Lemma rollback_upload_keeps_status :
  AUDIT_FILE Sample.imported = [with_status APPROVED Sample.row1]
  ∧ AUDIT_FILE (snd (rollback_upload Sample.u1 Sample.imported)) = []
  ∧ ROLLBACK_FILE (snd (rollback_upload Sample.u1 Sample.imported))
    = [with_status APPROVED Sample.row1]
  ∧ APPROVED ≠ ROLLED_BACK.
Proof. vm_compute. repeat split. discriminate. Qed.

(** C6.  An upload that is in the staging log with status PENDING and not
    in the audit log cannot be rolled back: the request is answered with
    404 and the state is unchanged.  The answer of rollback depends on the
    audit log alone. *)
Theorem rollback_of_pending_not_found (s : State) (x : str) (r : Row) :
  r ∈ STAGING_FILE s → upload_id r = x → status r = PENDING →
  x ∉ ids (AUDIT_FILE s) →
  NotFound (fst (rollback_upload x s))
  ∧ snd (rollback_upload x s) = s
  ∧ (∀ s1 s2 y, AUDIT_FILE s1 = AUDIT_FILE s2 →
                fst (rollback_upload y s1) = fst (rollback_upload y s2)).
Proof.
  intros _ _ _ Hx. rewrite (rollback_upload_absent x s Hx). simpl.
  split; [by eexists|]. split; [done|].
  intros s1 s2 y Heq. unfold rollback_upload. rewrite Heq.
  by destruct (filter (has_id y) (AUDIT_FILE s2)).
Qed.

Lemma rollback_of_pending_not_found_witness :
  Sample.row1 ∈ STAGING_FILE Sample.staged
  ∧ upload_id Sample.row1 = Sample.u1
  ∧ status Sample.row1 = PENDING
  ∧ (Sample.u1 ∉ ids (AUDIT_FILE Sample.staged))
  ∧ snd (rollback_upload Sample.u1 Sample.staged) = Sample.staged.
Proof.
  assert (Sample.row1 ∈ STAGING_FILE Sample.staged) as Hin by (vm_compute; left).
  assert (Sample.u1 ∉ ids (AUDIT_FILE Sample.staged)) as Hout
    by (vm_compute; apply not_elem_of_nil).
  split; [exact Hin|]. split; [reflexivity|]. split; [reflexivity|].
  split; [exact Hout|].
  exact (proj1 (proj2 (rollback_of_pending_not_found Sample.staged Sample.u1
                         Sample.row1 Hin eq_refl eq_refl Hout))).
Defined.

(** * Stage: the write comes first *)

(** C8, as the code has it.  When writing the uploaded bytes fails, the
    stage request raises and none of the three logs changes; of the stored
    files only the one at the path being written can differ.  That one is
    NOT left as it was when the copy breaks: the file has been opened for
    writing, so it holds the bytes that got through and nothing of what was
    stored there before (when opening fails it is left alone).  Conversely,
    a stage request that changes the staging log has completed the write:
    it appends exactly one row, and the bytes of the upload are stored
    under that row's path. *)
Theorem stage_file_appends_after_write (BASE_DIR : str) (file : UploadFile.t)
    (env : Env) (s : State) :
  let r := fst (stage_file BASE_DIR file env s) in
  let s' := snd (stage_file BASE_DIR file env s) in
  (disk env ≠ Written →
     r = Raised
     ∧ STAGING_FILE s' = STAGING_FILE s
     ∧ AUDIT_FILE s' = AUDIT_FILE s
     ∧ ROLLBACK_FILE s' = ROLLBACK_FILE s
     ∧ (∀ p, p ≠ upload_path BASE_DIR file env → files s' !! p = files s !! p)
     ∧ (disk env = OpenFailed → files s' = files s)
     ∧ (∀ n, disk env = CopyFailed n →
          files s' !! upload_path BASE_DIR file env
          = Some (take n (UploadFile.file file))))
  ∧ (STAGING_FILE s' ≠ STAGING_FILE s →
       disk env = Written
       ∧ ∃ row, STAGING_FILE s' = STAGING_FILE s ++ [row]
                ∧ files s' !! file_path row = Some (UploadFile.file file)).
Proof.
  intros r s'. subst r s'. split.
  - intros Hw. unfold stage_file, save_upload, write_file.
    destruct (disk env) as [| |n]; [done| |]; simpl.
    + repeat split; done.
    + repeat split; try done.
      * intros p Hp. by rewrite lookup_insert_ne.
      * intros m [= <-]. by rewrite lookup_insert_eq.
  - intros Hchanged. destruct (decide (disk env = Written)) as [Hw|Hw].
    + split; [done|].
      destruct (stage_file_written BASE_DIR file env s Hw) as (body & Heq).
      rewrite Heq. simpl. eexists. split; [done|]. simpl.
      by rewrite lookup_insert_eq.
    + destruct (stage_file_failed BASE_DIR file env s Hw) as (fs & Heq & Hfs).
      rewrite Heq in Hchanged. done.
Qed.

Lemma stage_file_appends_after_write_witness :
  disk Sample.env_disk_full ≠ Written
  ∧ fst (stage_file Sample.base Sample.parcel1 Sample.env_disk_full Sample.staged)
    = Raised
  ∧ STAGING_FILE (snd (stage_file Sample.base Sample.parcel1 Sample.env_disk_full
                         Sample.staged))
    = STAGING_FILE Sample.staged.
Proof.
  assert (disk Sample.env_disk_full ≠ Written) as Hw by discriminate.
  split; [exact Hw|].
  destruct (proj1 (stage_file_appends_after_write Sample.base Sample.parcel1
                     Sample.env_disk_full Sample.staged) Hw) as (H1 & H2 & _).
  split; [exact H1|exact H2].
Defined.

(** C8 fails as stated: a stage request whose copy breaks does not leave
    all prior state untouched.  [parcel1.xml] has been staged and its 13
    bytes are stored under the path of its row; a second upload of that
    name within the same second, whose copy breaks after five bytes, raises
    and adds no row, but the stored file of the first upload now holds
    those five bytes only. *)
Lemma failed_stage_truncates_stored_file :
  let s' := snd (stage_file Sample.base Sample.parcel1 Sample.env_disk_full
                   Sample.staged) in
  fst (stage_file Sample.base Sample.parcel1 Sample.env_disk_full Sample.staged)
  = Raised
  ∧ STAGING_FILE Sample.staged = [Sample.row1]
  ∧ STAGING_FILE s' = [Sample.row1]
  ∧ files Sample.staged !! file_path Sample.row1 = Some (blit "prop_id: 4500")
  ∧ files s' !! file_path Sample.row1 = Some (blit "prop_")
  ∧ files s' ≠ files Sample.staged.
Proof.
  assert (files Sample.staged !! file_path Sample.row1 = Some (blit "prop_id: 4500"))
    as Hbefore by (vm_compute; reflexivity).
  assert (files (snd (stage_file Sample.base Sample.parcel1 Sample.env_disk_full
                        Sample.staged)) !! file_path Sample.row1
          = Some (blit "prop_")) as Hafter by (vm_compute; reflexivity).
  cbv zeta. split; [vm_compute; reflexivity|].
  split; [vm_compute; reflexivity|]. split; [vm_compute; reflexivity|].
  split; [exact Hbefore|]. split; [exact Hafter|].
  intros Heq. rewrite Heq, Hbefore in Hafter. vm_compute in Hafter.
  discriminate Hafter.
Qed.

(** * Sequences of requests: which ids are in the logs *)

Section Traces.

Variable BASE_DIR : str.




End Traces.



(** * The status of a row *)




Section StatusInvariant.

Variable BASE_DIR : str.



End StatusInvariant.




(** * The order of strings *)

Lemma compare_antisym (a b : str) : compare b a = CompOpp (compare a b).
Proof.
  revert b. induction a as [|x a IH]; intros [|y b]; simpl; try done.
  rewrite (N.compare_antisym x y). destruct (x ?= y); simpl; [apply IH|done|done].
Qed.

Lemma leb_total (a b : str) : leb a b = true ∨ leb b a = true.
Proof.
  unfold leb. rewrite (compare_antisym a b).
  destruct (compare a b); simpl; auto.
Qed.

Lemma compare_trans_le (a b c : str) :
  compare a b ≠ Gt → compare b c ≠ Gt → compare a c ≠ Gt.
Proof.
  revert b c. induction a as [|x a IH]; intros [|y b] [|z c]; simpl; try done.
  destruct (N.compare_spec x y) as [->|Hxy|Hxy]; [| |done].
  - destruct (N.compare_spec y z) as [->|Hyz|Hyz]; [|done|done].
    apply IH.
  - intros _. destruct (N.compare_spec y z) as [->|Hyz|Hyz]; [| |done]; intros _.
    + destruct (N.compare_spec x z); [lia|done|lia].
    + destruct (N.compare_spec x z); [lia|done|lia].
Qed.

Lemma leb_trans (a b c : str) :
  leb a b = true → leb b c = true → leb a c = true.
Proof.
  unfold leb. intros Hab Hbc.
  pose proof (compare_trans_le a b c) as H.
  destruct (compare a b); [| |done]; (destruct (compare b c); [| |done]);
    (destruct (compare a c); [done|done|]); exfalso; by apply H.
Qed.

Global Instance descending_total i : Total (descending i).
Proof. intros r1 r2. unfold descending. destruct (leb_total (nth i r2 []) (nth i r1 [])); auto. Qed.

Global Instance descending_trans i : Transitive (descending i).
Proof. intros r1 r2 r3. unfold descending. intros H12 H23. by eapply leb_trans. Qed.

(** * Export and listing *)

Lemma setitem_log_type (tag : str) (log : list Row) :
  setitem (lit "log_type") tag (read_csv log)
  = {| columns := LOG_COLUMNS ++ [lit "log_type"];
       rows := map (fun r => cells r ++ [tag]) log |}.
Proof.
  unfold setitem, read_csv. cbn [columns rows].
  replace (get_loc (lit "log_type") LOG_COLUMNS) with (@None nat)
    by (vm_compute; reflexivity).
  by rewrite map_map.
Qed.

(** The frame of [export_logs] before it is sorted. *)
Lemma export_logs_unsorted (s : State) :
  let combined_df :=
    concat [ setitem (lit "log_type") (lit "staged") (read_csv (STAGING_FILE s));
             setitem (lit "log_type") (lit "approved") (read_csv (AUDIT_FILE s));
             setitem (lit "log_type") (lit "rolled_back") (read_csv (ROLLBACK_FILE s)) ] in
  (if has_column (lit "file_path") combined_df
   then drop (lit "file_path") combined_df else Some combined_df)
  = Some {| columns := [ lit "upload_id"; lit "timestamp"; lit "filename";
                         lit "sha256"; lit "prop_id"; lit "status"; lit "log_type" ];
            rows := map (export_row (lit "staged")) (STAGING_FILE s)
                    ++ map (export_row (lit "approved")) (AUDIT_FILE s)
                    ++ map (export_row (lit "rolled_back")) (ROLLBACK_FILE s) |}.
Proof.
  intros combined_df. subst combined_df. rewrite !setitem_log_type.
  unfold concat, has_column, drop. cbn [head from_option columns rows flat_map].
  replace (get_loc (lit "file_path") (LOG_COLUMNS ++ [lit "log_type"]))
    with (Some 6%nat) by (vm_compute; reflexivity).
  rewrite bool_decide_eq_true_2 by (by eexists).
  cbn [mbind option_bind]. f_equal. f_equal.
  rewrite app_nil_r, !map_app, !map_map. reflexivity.
Qed.

(** C7.  In every state the export succeeds.  Its frame has the columns
    of the logs without [file_path], and [log_type] last; its rows are the
    rows of the three logs together (each without its path and tagged
    staged, approved or rolled_back after the log it comes from), in
    descending order of the timestamp column. *)
Theorem export_logs_combined_sorted (s : State) :
  ∃ df,
    export_logs s = Returned df
    ∧ columns df = [ lit "upload_id"; lit "timestamp"; lit "filename";
                     lit "sha256"; lit "prop_id"; lit "status"; lit "log_type" ]
    ∧ (lit "file_path" ∉ columns df)
    ∧ get_loc (lit "timestamp") (columns df) = Some 1%nat
    ∧ rows df ≡ₚ map (export_row (lit "staged")) (STAGING_FILE s)
                 ++ map (export_row (lit "approved")) (AUDIT_FILE s)
                 ++ map (export_row (lit "rolled_back")) (ROLLBACK_FILE s)
    ∧ StronglySorted (fun r1 r2 => leb (nth 1 r2 []) (nth 1 r1 []) = true) (rows df).
Proof.
  unfold export_logs. rewrite (export_logs_unsorted s).
  cbn [mbind option_bind]. unfold sort_values_descending. cbn [columns rows].
  replace (get_loc (lit "timestamp")
             [ lit "upload_id"; lit "timestamp"; lit "filename"; lit "sha256";
               lit "prop_id"; lit "status"; lit "log_type" ])
    with (Some 1%nat) by (vm_compute; reflexivity).
  cbn [mbind option_bind]. eexists. split; [reflexivity|]. cbn [columns rows].
  split; [reflexivity|]. split.
  { apply (bool_decide_unpack _). vm_compute. exact I. }
  split; [vm_compute; reflexivity|]. split.
  - apply merge_sort_Permutation.
  - apply (StronglySorted_merge_sort (descending 1)).
Qed.

(** After stage, approve and rollback of [parcel1.xml] the export
    has a row for the staging log (the row is still there) and one for the
    rollback log. *)
Example export_after_rollback :
  let s := run Sample.base
             [ Stage Sample.parcel1 Sample.env1; Approve Sample.u1;
               Rollback Sample.u1 ] initial in
  export_logs s
  = Returned
      {| columns := [ lit "upload_id"; lit "timestamp"; lit "filename";
                      lit "sha256"; lit "prop_id"; lit "status"; lit "log_type" ];
         rows := [ export_row (lit "staged") (with_status APPROVED Sample.row1);
                   export_row (lit "rolled_back") Sample.row1 ] |}.
Proof. vm_compute. reflexivity. Qed.

Lemma getitem_safe_columns (log : list Row) :
  getitem [ lit "upload_id"; lit "timestamp"; lit "filename";
            lit "sha256"; lit "prop_id"; lit "status" ] (read_csv log)
  = Some {| columns := [ lit "upload_id"; lit "timestamp"; lit "filename";
                         lit "sha256"; lit "prop_id"; lit "status" ];
            rows := map (fun r => [ upload_id r; timestamp r; filename r;
                                    sha256 r; prop_id r; status r ]) log |}.
Proof.
  unfold getitem, read_csv. cbn [columns rows].
  replace (mapM (fun l => get_loc l LOG_COLUMNS)
             [ lit "upload_id"; lit "timestamp"; lit "filename";
               lit "sha256"; lit "prop_id"; lit "status" ])
    with (Some [0; 1; 2; 3; 4; 5]%nat) by (vm_compute; reflexivity).
  cbn [mbind option_bind]. by rewrite map_map.
Qed.

Lemma get_staging_data_records (s : State) :
  get_staging_data s = Returned (map safe_record (STAGING_FILE s)).
Proof.
  unfold get_staging_data. rewrite getitem_safe_columns.
  unfold to_dict_records. cbn [columns rows]. by rewrite map_map.
Qed.

Lemma safe_record_without_path (log : list Row) :
  map safe_record log = map safe_record (map (with_file_path []) log).
Proof. rewrite map_map. apply map_ext. intros r. reflexivity. Qed.

(** C10.  The staging listing answers with one record for each row of the
    staging log, in order, holding exactly the fields upload_id, timestamp,
    filename, sha256, prop_id and status of the row.  No record has a
    [file_path] field, and two staging logs that differ in the stored paths
    only have the same listing. *)
Theorem get_staging_data_hides_file_path (s : State) :
  get_staging_data s = Returned (map safe_record (STAGING_FILE s))
  ∧ (∀ r, map fst (safe_record r)
          = [ lit "upload_id"; lit "timestamp"; lit "filename";
              lit "sha256"; lit "prop_id"; lit "status" ]
          ∧ (lit "file_path" ∉ map fst (safe_record r))
          ∧ map snd (safe_record r)
            = [ upload_id r; timestamp r; filename r; sha256 r; prop_id r; status r ])
  ∧ (∀ s2, map (with_file_path []) (STAGING_FILE s2)
           = map (with_file_path []) (STAGING_FILE s) →
           get_staging_data s2 = get_staging_data s).
Proof.
  split; [apply get_staging_data_records|]. split.
  - intros r. split; [reflexivity|]. split; [|reflexivity].
    apply (bool_decide_unpack _). vm_compute. exact I.
  - intros s2 Heq. rewrite !get_staging_data_records. f_equal.
    rewrite (safe_record_without_path (STAGING_FILE s2)).
    rewrite (safe_record_without_path (STAGING_FILE s)).
    by rewrite Heq.
Qed.

Lemma get_staging_data_hides_file_path_witness :
  map (with_file_path []) (STAGING_FILE
         (set_STAGING_FILE [with_file_path (lit "/tmp/other") Sample.row1] initial))
  = map (with_file_path []) (STAGING_FILE Sample.staged)
  ∧ get_staging_data
      (set_STAGING_FILE [with_file_path (lit "/tmp/other") Sample.row1] initial)
    = get_staging_data Sample.staged.
Proof.
  assert (map (with_file_path []) (STAGING_FILE
            (set_STAGING_FILE [with_file_path (lit "/tmp/other") Sample.row1] initial))
          = map (with_file_path []) (STAGING_FILE Sample.staged)) as Heq
    by (vm_compute; reflexivity).
  split; [exact Heq|].
  exact (proj2 (proj2 (get_staging_data_hides_file_path Sample.staged)) _ Heq).
Defined.

(** * The property id of an upload *)

Lemma split_not_nil sep s : split sep s ≠ [].
Proof.
  destruct s as [|c s]; simpl; [done|].
  destruct (c =? sep); [done|]. by destruct (split sep s).
Qed.

Lemma split_no_sep sep s : sep ∉ s → split sep s = [s].
Proof.
  induction s as [|c s IH]; intros Hs; simpl; [done|].
  apply not_elem_of_cons in Hs as [Hne Hs].
  destruct (N.eqb_spec c sep) as [->|_]; [done|].
  by rewrite (IH Hs).
Qed.

Lemma split_app_sep sep a t :
  sep ∉ a → split sep (a ++ sep :: t) = a :: split sep t.
Proof.
  induction a as [|c a IH]; intros Ha; simpl.
  - by rewrite N.eqb_refl.
  - apply not_elem_of_cons in Ha as [Hne Ha].
    destruct (N.eqb_spec c sep) as [->|_]; [done|].
    by rewrite (IH Ha).
Qed.

(** [len(parts) > 1] says that the line has a colon. *)
Lemma split_length sep s : (1 < length (split sep s))%nat ↔ sep ∈ s.
Proof.
  split.
  - intros Hlen. destruct (decide (sep ∈ s)) as [|Hs]; [done|].
    rewrite (split_no_sep sep s Hs) in Hlen. simpl in Hlen. lia.
  - intros (a & t & -> & Ha)%list_elem_of_split_l.
    rewrite (split_app_sep sep a t Ha). simpl.
    pose proof (split_not_nil sep t). destruct (split sep t); [done|simpl; lia].
Qed.

(** The second part of a line is the text between its first colon and the
    next one, or the end of the line. *)
Lemma split_second sep name value rest :
  sep ∉ name → sep ∉ value → rest = [] ∨ (∃ rest', rest = sep :: rest') →
  nth 1 (split sep (name ++ sep :: value ++ rest)) [] = value.
Proof.
  intros Hname Hvalue Hrest. rewrite (split_app_sep sep name _ Hname). simpl.
  destruct Hrest as [->|(rest' & ->)].
  - by rewrite app_nil_r, (split_no_sep sep value Hvalue).
  - by rewrite (split_app_sep sep value rest' Hvalue).
Qed.

Lemma scan_lines_stops line after :
  is_value_line line = true →
  scan_lines (line :: after) = strip (nth 1 (split 58 line) []).
Proof.
  unfold is_value_line. intros [Hm Hc]%andb_true_iff. simpl. rewrite Hm.
  apply bool_decide_eq_true in Hc. apply split_length in Hc.
  by rewrite bool_decide_eq_true_2.
Qed.

Lemma scan_lines_skips line after :
  is_value_line line = false → scan_lines (line :: after) = scan_lines after.
Proof.
  unfold is_value_line. intros Hv. simpl.
  destruct (is_marker_line line); [|done]. simpl in Hv.
  apply bool_decide_eq_false in Hv.
  rewrite bool_decide_eq_false_2; [done|]. by rewrite split_length.
Qed.

Lemma scan_lines_app before lines :
  Forall (fun l => is_value_line l = false) before →
  scan_lines (before ++ lines) = scan_lines lines.
Proof.
  induction 1 as [|l before Hl _ IH]; [done|].
  rewrite <- app_comm_cons, scan_lines_skips; done.
Qed.

Lemma scan_lines_unknown lines :
  Forall (fun l => is_value_line l = false) lines → scan_lines lines = UNKNOWN.
Proof.
  intros H. rewrite <- (app_nil_r lines). by rewrite scan_lines_app.
Qed.

(** C9, as the code has it.  Whatever the bytes, a stage request whose
    write completes succeeds and appends one row with status PENDING; the
    bytes are decoded with the undecodable ones dropped, never refused.  If
    no line of that text is a marker line with a colon, the property id of
    the row is UNKNOWN.  Otherwise it is taken from the first marker line
    that has a colon: the text between the first colon of that line and
    its next colon (or its end), stripped of white space. *)
Theorem stage_file_prop_id (BASE_DIR : str) (file : UploadFile.t) (env : Env)
    (s : State) :
  disk env = Written →
  let lines := splitlines (decode_ignore (UploadFile.file file)) in
  let s' := snd (stage_file BASE_DIR file env s) in
  ∃ row,
    succeeded (fst (stage_file BASE_DIR file env s)) = true
    ∧ STAGING_FILE s' = STAGING_FILE s ++ [row]
    ∧ status row = PENDING
    ∧ (Forall (fun l => is_marker_line l = false) lines → prop_id row = UNKNOWN)
    ∧ (Forall (fun l => is_value_line l = false) lines → prop_id row = UNKNOWN)
    ∧ (∀ before line after name value rest,
         lines = before ++ line :: after →
         Forall (fun l => is_value_line l = false) before →
         is_marker_line line = true →
         line = name ++ 58 :: value ++ rest →
         58 ∉ name → 58 ∉ value → rest = [] ∨ (∃ rest', rest = 58 :: rest') →
         prop_id row = strip value).
Proof.
  intros Hw lines s'. subst s'.
  destruct (stage_file_written BASE_DIR file env s Hw) as (body & Heq).
  rewrite Heq. simpl. eexists. split; [done|]. split; [done|]. simpl.
  split; [done|]. fold lines. unfold extract_prop_id. fold lines.
  split; [|split].
  - intros Hnone. apply scan_lines_unknown. eapply Forall_impl; [exact Hnone|].
    intros l Hl. unfold is_value_line. by rewrite Hl.
  - apply scan_lines_unknown.
  - intros before line after name value rest Hlines Hbefore Hmarker Hline
      Hname Hvalue Hrest.
    rewrite Hlines, (scan_lines_app before _ Hbefore).
    rewrite scan_lines_stops.
    + by rewrite Hline, (split_second 58 name value rest Hname Hvalue Hrest).
    + unfold is_value_line. rewrite Hmarker. simpl. apply bool_decide_eq_true.
      rewrite Hline, elem_of_app, elem_of_cons. auto.
Qed.

Lemma stage_file_prop_id_witness :
  disk Sample.env1 = Written
  ∧ ∃ row, STAGING_FILE (snd (stage_file Sample.base Sample.parcel_two_ids
                                Sample.env1 initial)) = [] ++ [row]
           ∧ prop_id row = strip (lit " 1").
Proof.
  split; [reflexivity|].
  destruct (stage_file_prop_id Sample.base Sample.parcel_two_ids Sample.env1
              initial eq_refl) as (row & _ & Hrow & _ & _ & _ & Hvalue).
  exists row. split; [exact Hrow|].
  apply (Hvalue [lit "owner: Smith"] (lit "prop_id: 1") [lit "property_id: 2"]
           (lit "prop_id") (lit " 1") []).
  - vm_compute. reflexivity.
  - constructor; [vm_compute; reflexivity|constructor].
  - vm_compute. reflexivity.
  - vm_compute. reflexivity.
  - apply (bool_decide_unpack _). vm_compute. exact I.
  - apply (bool_decide_unpack _). vm_compute. exact I.
  - by left.
Defined.

(** C9 fails as stated: the bytes of [parcel2.xml] are not valid UTF-8,
    so they cannot be decoded as text, and yet the row staged for them has
    the property id 45, not UNKNOWN.  And of two marker lines with a value
    the first one wins: the value 2 of the second is not the property id. *)
Lemma undecodable_upload_keeps_its_prop_id :
  decode (UploadFile.file Sample.parcel_ff) = None
  ∧ map prop_id (STAGING_FILE (snd (stage_file Sample.base Sample.parcel_ff
                                      Sample.env1 initial))) = [lit "45"]
  ∧ lit "45" ≠ UNKNOWN
  ∧ map prop_id (STAGING_FILE (snd (stage_file Sample.base Sample.parcel_two_ids
                                      Sample.env1 initial))) = [lit "1"].
Proof. vm_compute. repeat split. discriminate. Qed.

(** * Further properties of the handlers *)

(** Whatever the first rollback of an upload id answered, a second one
    right after it answers 404 and changes nothing: rollback, unlike
    approve, takes the rows out of the log it reads. *)
Theorem rollback_twice_not_found (s : State) (x : str) :
  let s1 := snd (rollback_upload x s) in
  (x ∉ ids (AUDIT_FILE s1))
  ∧ NotFound (fst (rollback_upload x s1))
  ∧ snd (rollback_upload x s1) = s1.
Proof.
  intros s1.
  assert (x ∉ ids (AUDIT_FILE s1)) as Hgone.
  { subst s1. destruct (decide (x ∈ ids (AUDIT_FILE s))) as [Hx|Hx].
    - rewrite (rollback_upload_present x s Hx). simpl.
      rewrite ids_filter_other. by intros [Hne _].
    - by rewrite (rollback_upload_absent x s Hx). }
  split; [exact Hgone|]. rewrite (rollback_upload_absent x s1 Hgone). simpl.
  split; [by eexists|done].
Qed.

Section RequestFacts.

Variable BASE_DIR : str.

(** A handler that refuses a request with an [HTTPException] does so
    before its first write: the answer is the 404 of an approve whose id is
    not in the staging log or of a rollback whose id is not in the audit
    log, and the three logs and the stored files are exactly as they were.
    The stage and import handlers never answer that way. *)
Theorem refused_request_changes_nothing (q : request) (s : State)
    (status_code : N) (detail : str) :
  fst (handle BASE_DIR q s) = HTTPException status_code detail →
  snd (handle BASE_DIR q s) = s
  ∧ status_code = 404
  ∧ ((∃ x, q = Approve x ∧ x ∉ ids (STAGING_FILE s))
     ∨ (∃ x, q = Rollback x ∧ x ∉ ids (AUDIT_FILE s))).
Proof.
  intros Hrefused. destruct q as [file env|file env|y|y]; simpl in *.
  - destruct (decide (disk env = Written)) as [Hw|Hw].
    + destruct (stage_file_written BASE_DIR file env s Hw) as (body & Heq).
      by rewrite Heq in Hrefused.
    + destruct (stage_file_failed BASE_DIR file env s Hw) as (fs & Heq & _).
      by rewrite Heq in Hrefused.
  - destruct (decide (disk env = Written)) as [Hw|Hw].
    + destruct (direct_import_written BASE_DIR file env s Hw) as (body & Heq).
      by rewrite Heq in Hrefused.
    + destruct (direct_import_failed BASE_DIR file env s Hw) as (fs & Heq & _).
      by rewrite Heq in Hrefused.
  - destruct (decide (y ∈ ids (STAGING_FILE s))) as [Hy|Hy].
    + by rewrite (approve_upload_present y s Hy) in Hrefused.
    + rewrite (approve_upload_absent y s Hy) in *. simpl in *.
      injection Hrefused as <- _. split; [done|]. split; [done|]. left. by exists y.
  - destruct (decide (y ∈ ids (AUDIT_FILE s))) as [Hy|Hy].
    + by rewrite (rollback_upload_present y s Hy) in Hrefused.
    + rewrite (rollback_upload_absent y s Hy) in *. simpl in *.
      injection Hrefused as <- _. split; [done|]. split; [done|]. right. by exists y.
Qed.

Lemma logs_grow_step q s :
  ids (STAGING_FILE s) `prefix_of` ids (STAGING_FILE (step BASE_DIR s q))
  ∧ statuses (ROLLBACK_FILE s) `prefix_of` statuses (ROLLBACK_FILE (step BASE_DIR s q)).
Proof.
  unfold step. destruct q as [file env|file env|y|y]; simpl.
  - destruct (decide (disk env = Written)) as [Hw|Hw].
    + destruct (stage_file_written BASE_DIR file env s Hw) as (body & Heq).
      rewrite Heq. simpl. split; [|done]. rewrite ids_app. by apply prefix_app_r.
    + destruct (stage_file_failed BASE_DIR file env s Hw) as (fs & Heq & _).
      rewrite Heq. simpl. done.
  - destruct (decide (disk env = Written)) as [Hw|Hw].
    + destruct (direct_import_written BASE_DIR file env s Hw) as (body & Heq).
      rewrite Heq. simpl. done.
    + destruct (direct_import_failed BASE_DIR file env s Hw) as (fs & Heq & _).
      rewrite Heq. simpl. done.
  - destruct (decide (y ∈ ids (STAGING_FILE s))) as [Hy|Hy].
    + rewrite (approve_upload_present y s Hy). simpl. by rewrite ids_mark.
    + rewrite (approve_upload_absent y s Hy). done.
  - destruct (decide (y ∈ ids (AUDIT_FILE s))) as [Hy|Hy].
    + rewrite (rollback_upload_present y s Hy). simpl. split; [done|].
      rewrite statuses_app. by apply prefix_app_r.
    + rewrite (rollback_upload_absent y s Hy). done.
Qed.

(** The staging log and the rollback log only grow.  Over any sequence of
    requests (each reading and writing its logs to the end) the upload ids
    of the staging log stay in their place, with new ones added after them:
    no request takes an upload out of staging.  The upload ids of the
    rollback log stay in their place too, each with the status it was
    logged with, with new ones added after them. *)
Theorem staging_and_rollback_logs_only_grow (qs : list request) (s : State) :
  ids (STAGING_FILE s) `prefix_of` ids (STAGING_FILE (run BASE_DIR qs s))
  ∧ statuses (ROLLBACK_FILE s)
      `prefix_of` statuses (ROLLBACK_FILE (run BASE_DIR qs s)).
Proof.
  revert s. induction qs as [|q qs IH]; intros s; [done|].
  change (run BASE_DIR (q :: qs) s) with (run BASE_DIR qs (step BASE_DIR s q)).
  destruct (logs_grow_step q s) as [H1 H2].
  destruct (IH (step BASE_DIR s q)) as [H3 H4].
  split; etrans; eauto.
Qed.

Lemma audited_uploads_step q s p :
  p ∈ statuses (AUDIT_FILE s) ++ statuses (ROLLBACK_FILE s) →
  p ∈ statuses (AUDIT_FILE (step BASE_DIR s q))
      ++ statuses (ROLLBACK_FILE (step BASE_DIR s q)).
Proof.
  rewrite <- !statuses_app. unfold statuses. rewrite !list_elem_of_fmap.
  intros (r & -> & Hr). exists r. split; [done|]. revert Hr.
  unfold step. destruct q as [file env|file env|y|y]; simpl.
  - destruct (decide (disk env = Written)) as [Hw|Hw].
    + destruct (stage_file_written BASE_DIR file env s Hw) as (body & Heq).
      by rewrite Heq.
    + destruct (stage_file_failed BASE_DIR file env s Hw) as (fs & Heq & _).
      by rewrite Heq.
  - destruct (decide (disk env = Written)) as [Hw|Hw].
    + destruct (direct_import_written BASE_DIR file env s Hw) as (body & Heq).
      rewrite Heq. simpl. rewrite !elem_of_app. tauto.
    + destruct (direct_import_failed BASE_DIR file env s Hw) as (fs & Heq & _).
      by rewrite Heq.
  - destruct (decide (y ∈ ids (STAGING_FILE s))) as [Hy|Hy].
    + rewrite (approve_upload_present y s Hy). simpl. rewrite !elem_of_app. tauto.
    + by rewrite (approve_upload_absent y s Hy).
  - destruct (decide (y ∈ ids (AUDIT_FILE s))) as [Hy|Hy].
    + rewrite (rollback_upload_present y s Hy). simpl.
      rewrite !elem_of_app, !list_elem_of_filter.
      destruct (has_id y r) eqn:Hr; simpl; tauto.
    + by rewrite (rollback_upload_absent y s Hy).
Qed.

(** No request drops an audited upload or changes its status.  Over any
    sequence of requests (each reading and writing its logs to the end) an
    upload id found with some status in the audit log or in the rollback
    log is afterwards still found with that status in one of these two
    logs: an upload that has been approved or imported never falls back to
    being in the staging log only. *)
Theorem audited_uploads_are_kept (qs : list request) (s : State) (p : str * str) :
  p ∈ statuses (AUDIT_FILE s) ++ statuses (ROLLBACK_FILE s) →
  p ∈ statuses (AUDIT_FILE (run BASE_DIR qs s))
      ++ statuses (ROLLBACK_FILE (run BASE_DIR qs s)).
Proof.
  revert s. induction qs as [|q qs IH]; intros s Hp; [exact Hp|].
  change (run BASE_DIR (q :: qs) s) with (run BASE_DIR qs (step BASE_DIR s q)).
  apply IH. by apply audited_uploads_step.
Qed.

End RequestFacts.

Lemma refused_request_changes_nothing_witness :
  fst (handle Sample.base (Rollback Sample.u1) Sample.staged)
  = HTTPException 404 (lit "Upload not found in audit log")
  ∧ snd (handle Sample.base (Rollback Sample.u1) Sample.staged) = Sample.staged.
Proof.
  assert (fst (handle Sample.base (Rollback Sample.u1) Sample.staged)
          = HTTPException 404 (lit "Upload not found in audit log")) as Hrefused
    by (vm_compute; reflexivity).
  split; [exact Hrefused|].
  exact (proj1 (refused_request_changes_nothing Sample.base (Rollback Sample.u1)
                  Sample.staged _ _ Hrefused)).
Defined.

Lemma audited_uploads_are_kept_witness :
  (Sample.u1, APPROVED)
    ∈ statuses (AUDIT_FILE Sample.imported) ++ statuses (ROLLBACK_FILE Sample.imported)
  ∧ (Sample.u1, APPROVED)
    ∈ statuses (AUDIT_FILE (run Sample.base [Rollback Sample.u1] Sample.imported))
      ++ statuses (ROLLBACK_FILE (run Sample.base [Rollback Sample.u1] Sample.imported)).
Proof.
  assert ((Sample.u1, APPROVED)
            ∈ statuses (AUDIT_FILE Sample.imported)
              ++ statuses (ROLLBACK_FILE Sample.imported)) as Hin
    by (vm_compute; left).
  split; [exact Hin|].
  exact (audited_uploads_are_kept Sample.base [Rollback Sample.u1] Sample.imported
           _ Hin).
Defined.

(** * Approve and rollback of different uploads *)

Lemma filter_has_id_other x y (log : list Row) :
  x ≠ y → filter (has_id y) (filter (has_id x) log) = [].
Proof.
  intros Hne. apply filter_has_id_nil. rewrite ids_filter_has_id.
  intros [Heq _]. congruence.
Qed.

Lemma filter_not_has_id_other x y (log : list Row) :
  x ≠ y →
  filter (fun r => negb (has_id y r)) (filter (has_id x) log) = filter (has_id x) log.
Proof.
  intros Hne. induction log as [|r log IH]; [done|].
  rewrite (filter_cons (has_id x)). destruct (decide (has_id x r)) as [Hr|Hr]; [|exact IH].
  rewrite filter_cons_True; [by rewrite IH|].
  apply negb_prop_intro. rewrite has_id_spec in *. congruence.
Qed.

(** Approving one upload and rolling back another can be done in either
    order: the two answers are the same, and so are, in each of the three
    logs, the upload ids in their order, each with its status.  (Nothing
    is said of the other cells: which of them pandas writes back in
    another form can depend on the order of the two requests.) *)
Theorem approve_rollback_commute (s : State) (x y : str) :
  x ≠ y →
  log_view (snd (rollback_upload y (snd (approve_upload x s))))
  = log_view (snd (approve_upload x (snd (rollback_upload y s))))
  ∧ fst (rollback_upload y (snd (approve_upload x s))) = fst (rollback_upload y s)
  ∧ fst (approve_upload x (snd (rollback_upload y s))) = fst (approve_upload x s).
Proof.
  intros Hne.
  destruct (decide (x ∈ ids (STAGING_FILE s))) as [Hx|Hx];
    destruct (decide (y ∈ ids (AUDIT_FILE s))) as [Hy|Hy].
  - rewrite (approve_upload_present x s Hx), (rollback_upload_present y s Hy). simpl.
    rewrite rollback_upload_present
      by (simpl; rewrite ids_app, elem_of_app; by left).
    rewrite approve_upload_present by done. simpl.
    rewrite !filter_app, filter_has_id_other, filter_not_has_id_other, app_nil_r by done.
    done.
  - rewrite (approve_upload_present x s Hx), (rollback_upload_absent y s Hy). simpl.
    rewrite rollback_upload_absent.
    + by rewrite (approve_upload_present x s Hx).
    + simpl. rewrite ids_app, elem_of_app, ids_filter_has_id.
      intros [H|[H _]]; [done|congruence].
  - rewrite (approve_upload_absent x s Hx), (rollback_upload_present y s Hy). simpl.
    rewrite (rollback_upload_present y s Hy).
    by rewrite approve_upload_absent.
  - rewrite (approve_upload_absent x s Hx), (rollback_upload_absent y s Hy). simpl.
    by rewrite (approve_upload_absent x s Hx), (rollback_upload_absent y s Hy).
Qed.

Lemma approve_rollback_commute_witness :
  Sample.u1 ≠ lit "second-upload"
  ∧ log_view (snd (rollback_upload (lit "second-upload")
                     (snd (approve_upload Sample.u1 Sample.staged_and_imported))))
    = log_view (snd (approve_upload Sample.u1
                       (snd (rollback_upload (lit "second-upload")
                               Sample.staged_and_imported)))).
Proof.
  assert (Sample.u1 ≠ lit "second-upload") as Hne by discriminate.
  split; [exact Hne|].
  exact (proj1 (approve_rollback_commute Sample.staged_and_imported Sample.u1
                  (lit "second-upload") Hne)).
Defined.

(** * From stage to rollback *)

(** The upload id in the answer of a stage request is the key of the whole
    life of the upload.  Whatever the logs held before: approve of that id
    succeeds, rollback of that id then succeeds too, and afterwards the id
    is still in the staging log (its rows marked APPROVED), it is in the
    rollback log, and it is no longer in the audit log. *)
Theorem stage_approve_rollback (BASE_DIR : str) (file : UploadFile.t) (env : Env)
    (s : State) :
  disk env = Written →
  ∃ body x,
    fst (stage_file BASE_DIR file env s) = Returned body
    ∧ dict_get (lit "upload_id") body = Some x
    ∧ let s1 := snd (stage_file BASE_DIR file env s) in
      let s2 := snd (approve_upload x s1) in
      let s3 := snd (rollback_upload x s2) in
      succeeded (fst (approve_upload x s1)) = true
      ∧ succeeded (fst (rollback_upload x s2)) = true
      ∧ x ∈ ids (STAGING_FILE s3)
      ∧ Forall (fun r => status r = APPROVED) (filter (has_id x) (STAGING_FILE s3))
      ∧ (x ∉ ids (AUDIT_FILE s3))
      ∧ x ∈ ids (ROLLBACK_FILE s3).
Proof.
  intros Hw. unfold stage_file. rewrite (save_upload_written _ _ _ _ Hw). simpl.
  eexists _, (uuid4 env). split; [reflexivity|]. split; [reflexivity|].
  set (s1 := set_STAGING_FILE _ _).
  assert (uuid4 env ∈ ids (STAGING_FILE s1)) as H1.
  { subst s1. simpl. rewrite ids_app, elem_of_app. right. simpl. left. }
  rewrite (approve_upload_present _ s1 H1). simpl.
  set (s2 := Build_State _ _ _ _).
  assert (uuid4 env ∈ ids (AUDIT_FILE s2)) as H2.
  { subst s2. simpl. rewrite ids_app, elem_of_app, ids_filter_has_id. by right. }
  rewrite (rollback_upload_present _ s2 H2). simpl.
  split; [done|]. split; [done|]. split; [by rewrite ids_mark|]. split.
  { rewrite filter_mark. apply Forall_forall. intros r Hr.
    apply list_elem_of_In, in_map_iff in Hr. by destruct Hr as (r0 & <- & _). }
  split.
  - rewrite ids_filter_other. by intros [Hne _].
  - rewrite ids_app, elem_of_app, ids_filter_has_id. by right.
Qed.

Lemma stage_approve_rollback_witness :
  disk Sample.env1 = Written
  ∧ ∃ body x,
      fst (stage_file Sample.base Sample.parcel1 Sample.env1 initial) = Returned body
      ∧ dict_get (lit "upload_id") body = Some x
      ∧ succeeded (fst (approve_upload x
                          (snd (stage_file Sample.base Sample.parcel1 Sample.env1
                                  initial)))) = true.
Proof.
  split; [reflexivity|].
  destruct (stage_approve_rollback Sample.base Sample.parcel1 Sample.env1 initial
              eq_refl) as (body & x & Hbody & Hx & Happrove & _).
  exists body, x. split; [exact Hbody|]. split; [exact Hx|exact Happrove].
Defined.

(** * The diff preview *)

Lemma filter_map_same_id (f : Row → Row) x (log : list Row) :
  (∀ r, has_id x (f r) = has_id x r) →
  filter (has_id x) (map f log) = map f (filter (has_id x) log).
Proof.
  intros Hf. induction log as [|r log IH]; [done|]. simpl.
  rewrite !filter_cons, Hf. destruct (decide (has_id x r)); simpl; by rewrite IH.
Qed.

Lemma get_diff_absent x s :
  x ∉ ids (STAGING_FILE s) → get_diff x s = HTTPException 404 (lit "Upload not found").
Proof.
  intros Hx. apply filter_has_id_nil in Hx. unfold get_diff. by rewrite Hx.
Qed.

(** The diff preview answers 404 exactly for the upload ids that are not
    in the staging log, which are exactly those approve refuses.  For the
    other ids it answers with three field comparisons and the property id
    of a staging row of that id.  The answer is the same before and after
    any approve or rollback: an upload can still be previewed after it has
    been approved or rolled back. *)
Theorem get_diff_follows_staging (s : State) (x : str) :
  (NotFound (get_diff x s) ↔ x ∉ ids (STAGING_FILE s))
  ∧ (NotFound (get_diff x s) ↔ NotFound (fst (approve_upload x s)))
  ∧ (x ∈ ids (STAGING_FILE s) →
       ∃ body r, get_diff x s = Returned body
                 ∧ r ∈ STAGING_FILE s ∧ upload_id r = x
                 ∧ Diff.prop_id body = prop_id r
                 ∧ length (Diff.fields body) = 3%nat)
  ∧ (∀ y, get_diff x (snd (approve_upload y s)) = get_diff x s)
  ∧ (∀ y, get_diff x (snd (rollback_upload y s)) = get_diff x s).
Proof.
  assert (NotFound (get_diff x s) ↔ x ∉ ids (STAGING_FILE s)) as Hnf.
  { split.
    - intros [detail Hd] Hx. unfold get_diff in Hd.
      destruct (filter (has_id x) (STAGING_FILE s)) eqn:Hrow; [|done].
      by apply filter_has_id_nil in Hrow.
    - intros Hx. rewrite (get_diff_absent x s Hx). by eexists. }
  split; [exact Hnf|]. split; [by rewrite Hnf, approve_upload_not_found_iff|].
  split; [|split].
  - intros Hx. unfold get_diff.
    destruct (filter (has_id x) (STAGING_FILE s)) as [|r rest] eqn:Hrow.
    { by apply filter_has_id_nil in Hrow. }
    assert (r ∈ filter (has_id x) (STAGING_FILE s)) as Hr by (rewrite Hrow; left).
    apply list_elem_of_filter in Hr as [Hid Hr]. apply has_id_spec in Hid.
    eexists _, r. split; [reflexivity|]. done.
  - intros y. destruct (decide (y ∈ ids (STAGING_FILE s))) as [Hy|Hy].
    + rewrite (approve_upload_present y s Hy). unfold get_diff. simpl.
      rewrite filter_map_same_id by (intros r; by destruct (has_id y r)).
      destruct (filter (has_id x) (STAGING_FILE s)) as [|r rest]; [done|].
      simpl. by destruct (has_id y r).
    + by rewrite (approve_upload_absent y s Hy).
  - intros y. destruct (decide (y ∈ ids (AUDIT_FILE s))) as [Hy|Hy].
    + by rewrite (rollback_upload_present y s Hy).
    + by rewrite (rollback_upload_absent y s Hy).
Qed.

Lemma get_diff_follows_staging_witness :
  Sample.u1 ∈ ids (STAGING_FILE Sample.staged)
  ∧ ∃ body, get_diff Sample.u1 Sample.staged = Returned body
            ∧ length (Diff.fields body) = 3%nat.
Proof.
  assert (Sample.u1 ∈ ids (STAGING_FILE Sample.staged)) as Hin by (vm_compute; left).
  split; [exact Hin|].
  destruct (proj1 (proj2 (proj2 (get_diff_follows_staging Sample.staged Sample.u1)))
              Hin) as (body & r & Hbody & _ & _ & _ & Hlen).
  exists body. split; [exact Hbody|exact Hlen].
Defined.

(** * The listing after an approval *)

(** Approved uploads stay in the staging listing.  After approve of an
    upload id found in the staging log the listing has as many records as
    before, and every record of that id is still listed, now with status
    APPROVED. *)
Theorem listing_keeps_approved_uploads (s : State) (x : str) :
  x ∈ ids (STAGING_FILE s) →
  ∃ before after,
    get_staging_data s = Returned before
    ∧ get_staging_data (snd (approve_upload x s)) = Returned after
    ∧ length after = length before
    ∧ (∃ d, d ∈ after ∧ dict_get (lit "upload_id") d = Some x)
    ∧ (∀ d, d ∈ after → dict_get (lit "upload_id") d = Some x →
            dict_get (lit "status") d = Some APPROVED).
Proof.
  intros Hx. rewrite !get_staging_data_records, (approve_upload_present x s Hx).
  simpl. eexists _, _. split; [reflexivity|]. split; [reflexivity|].
  rewrite !length_map. split; [done|]. split.
  - apply elem_of_ids in Hx as (r & Hr & <-).
    exists (safe_record (if has_id (upload_id r) r then with_status APPROVED r else r)).
    split.
    + apply list_elem_of_fmap. eexists. split; [reflexivity|].
      apply list_elem_of_fmap. by exists r.
    + by destruct (has_id (upload_id r) r).
  - intros d (r' & -> & (r & -> & Hr)%list_elem_of_fmap)%list_elem_of_fmap Hid.
    destruct (has_id x r) eqn:Hxr; [done|].
    exfalso. cbn in Hid. injection Hid as Hid.
    apply has_id_spec in Hid. by rewrite Hxr in Hid.
Qed.

Lemma listing_keeps_approved_uploads_witness :
  Sample.u1 ∈ ids (STAGING_FILE Sample.staged)
  ∧ ∃ after, get_staging_data (snd (approve_upload Sample.u1 Sample.staged))
             = Returned after
             ∧ length after = 1%nat.
Proof.
  assert (Sample.u1 ∈ ids (STAGING_FILE Sample.staged)) as Hin by (vm_compute; left).
  split; [exact Hin|].
  destruct (listing_keeps_approved_uploads Sample.staged Sample.u1 Hin)
    as (before & after & Hb & Ha & Hlen & _).
  exists after. split; [exact Ha|]. rewrite Hlen.
  rewrite get_staging_data_records in Hb. injection Hb as <-. reflexivity.
Defined.

(** * Where an upload is stored *)

Lemma strftime_starts_with_digit (d : datetime) :
  ∃ c rest, strftime d = c :: rest ∧ 48 <= c.
Proof.
  unfold strftime, zfill. simpl.
  repeat match goal with
         | |- context [if ?b then _ else _] => destruct b
         end; simpl; eexists _, _; (split; [reflexivity|apply N.le_add_r]).
Qed.

Lemma UPLOAD_DIR_ends_with_uploads (BASE_DIR : str) :
  ∃ front, UPLOAD_DIR BASE_DIR = front ++ lit "uploads".
Proof.
  unfold UPLOAD_DIR, path_join.
  replace (startswith (lit "/") (lit "uploads")) with false by reflexivity.
  destruct (eqb BASE_DIR [] || startswith (lit "/") (rev BASE_DIR)).
  - by exists BASE_DIR.
  - exists (BASE_DIR ++ lit "/"). by rewrite <- (assoc (++)).
Qed.

(** The stored path of an upload is always the upload directory, one
    separator, the time stamp, an underscore and the file name as the
    client sent it: [os.path.join] never drops the directory, whatever the
    file name (even one that begins with a slash) and whatever the base
    directory, because the component it joins begins with a digit.  Which
    character separates is the platform's matter and is not fixed here. *)
Theorem upload_path_shape (BASE_DIR : str) :
  ∃ sep, length sep = 1%nat
    ∧ ∀ file env,
        upload_path BASE_DIR file env
        = UPLOAD_DIR BASE_DIR ++ sep ++ strftime (now_path env) ++ lit "_"
          ++ UploadFile.filename file.
Proof.
  exists (lit "/"). split; [reflexivity|]. intros file env.
  unfold upload_path, path_join.
  destruct (strftime_starts_with_digit (now_path env)) as (c & rest & -> & Hc).
  destruct (UPLOAD_DIR_ends_with_uploads BASE_DIR) as (front & ->).
  replace (startswith (lit "/") ((c :: rest) ++ lit "_" ++ UploadFile.filename file))
    with false.
  2:{ symmetry. change ((47 =? c) && true = false).
      destruct (N.eqb_spec 47 c); [lia|done]. }
  replace (eqb (front ++ lit "uploads") []) with false.
  2:{ symmetry. apply bool_decide_eq_false. by destruct front. }
  rewrite rev_app_distr. reflexivity.
Qed.

(** Two uploads with the same file name within the same second share one
    stored path.  Both are staged, each with its own upload id and with the
    hash of its own bytes, but the file on disk then holds the bytes of the
    second upload only: the first row's path no longer leads to the bytes
    its hash was taken from. *)
Theorem same_name_same_second_overwrites (BASE_DIR : str)
    (file1 file2 : UploadFile.t) (env1 env2 : Env) (s : State) :
  disk env1 = Written → disk env2 = Written →
  UploadFile.filename file1 = UploadFile.filename file2 →
  strftime (now_path env1) = strftime (now_path env2) →
  let s1 := snd (stage_file BASE_DIR file1 env1 s) in
  let s2 := snd (stage_file BASE_DIR file2 env2 s1) in
  ∃ r1 r2,
    STAGING_FILE s2 = STAGING_FILE s ++ [r1; r2]
    ∧ upload_id r1 = uuid4 env1 ∧ upload_id r2 = uuid4 env2
    ∧ sha256 r1 = sha256_hexdigest (UploadFile.file file1)
    ∧ sha256 r2 = sha256_hexdigest (UploadFile.file file2)
    ∧ file_path r1 = file_path r2
    ∧ files s1 !! file_path r1 = Some (UploadFile.file file1)
    ∧ files s2 !! file_path r1 = Some (UploadFile.file file2).
Proof.
  intros Hw1 Hw2 Hname Hstamp s1 s2. subst s1 s2.
  destruct (stage_file_written BASE_DIR file1 env1 s Hw1) as (body1 & ->). simpl.
  destruct (stage_file_written BASE_DIR file2 env2
              {| STAGING_FILE := STAGING_FILE s ++ [new_row BASE_DIR PENDING file1 env1];
                 AUDIT_FILE := AUDIT_FILE s;
                 ROLLBACK_FILE := ROLLBACK_FILE s;
                 files := <[upload_path BASE_DIR file1 env1 := UploadFile.file file1]>
                            (files s) |} Hw2) as (body2 & ->). simpl.
  assert (upload_path BASE_DIR file1 env1 = upload_path BASE_DIR file2 env2) as Hpath.
  { unfold upload_path. by rewrite Hname, Hstamp. }
  eexists _, _. split; [by rewrite <- (assoc (++))|]. simpl.
  repeat split; try done.
  - by rewrite lookup_insert_eq.
  - by rewrite Hpath, lookup_insert_eq.
Qed.

Lemma same_name_same_second_overwrites_witness :
  disk Sample.env1 = Written ∧ disk (Sample.env "second-upload") = Written
  ∧ ∃ r1 r2,
      STAGING_FILE (snd (stage_file Sample.base Sample.parcel1
                           (Sample.env "second-upload") Sample.staged))
      = [] ++ [r1; r2]
      ∧ file_path r1 = file_path r2.
Proof.
  split; [reflexivity|]. split; [reflexivity|].
  destruct (same_name_same_second_overwrites Sample.base Sample.parcel1
              Sample.parcel1 Sample.env1 (Sample.env "second-upload") initial
              eq_refl eq_refl eq_refl eq_refl)
    as (r1 & r2 & Hlog & _ & _ & _ & _ & Hpath & _).
  exists r1, r2. split; [exact Hlog|exact Hpath].
Defined.

(** * Direct import *)

(** A direct import whose write completes appends exactly one row, with
    status APPROVED, to the audit log and leaves the staging and rollback
    logs alone; the row has the hash and the property id of the uploaded
    bytes, which are then stored under the row's path.  The answer always
    says [risk_flag: none], also when no property id was found.  When the
    write fails the request raises and no log changes. *)
Theorem direct_import_appends_approved_row (BASE_DIR : str) (file : UploadFile.t)
    (env : Env) (s : State) :
  let s' := snd (direct_import BASE_DIR file env s) in
  (disk env = Written →
     ∃ body row,
       fst (direct_import BASE_DIR file env s) = Returned body
       ∧ AUDIT_FILE s' = AUDIT_FILE s ++ [row]
       ∧ STAGING_FILE s' = STAGING_FILE s
       ∧ ROLLBACK_FILE s' = ROLLBACK_FILE s
       ∧ upload_id row = uuid4 env
       ∧ status row = APPROVED
       ∧ sha256 row = sha256_hexdigest (UploadFile.file file)
       ∧ prop_id row = extract_prop_id (UploadFile.file file)
       ∧ files s' !! file_path row = Some (UploadFile.file file)
       ∧ dict_get (lit "risk_flag") body = Some (lit "none")
       ∧ dict_get (lit "prop_id") body = Some (prop_id row)
       ∧ dict_get (lit "sha256") body = Some (sha256 row)
       ∧ dict_get (lit "upload_id") body = None)
  ∧ (disk env ≠ Written →
       fst (direct_import BASE_DIR file env s) = Raised
       ∧ STAGING_FILE s' = STAGING_FILE s
       ∧ AUDIT_FILE s' = AUDIT_FILE s
       ∧ ROLLBACK_FILE s' = ROLLBACK_FILE s).
Proof.
  intros s'. subst s'. split.
  - intros Hw. unfold direct_import. rewrite (save_upload_written _ _ _ _ Hw).
    simpl. eexists _, _. split; [reflexivity|]. split; [reflexivity|]. simpl.
    repeat split; try done. by rewrite lookup_insert_eq.
  - intros Hw. destruct (direct_import_failed BASE_DIR file env s Hw) as (fs & -> & _).
    done.
Qed.

Lemma direct_import_appends_approved_row_witness :
  disk Sample.env1 = Written
  ∧ ∃ row, AUDIT_FILE (snd (direct_import Sample.base Sample.parcel1 Sample.env1
                             initial)) = [] ++ [row]
           ∧ status row = APPROVED.
Proof.
  split; [reflexivity|].
  destruct (proj1 (direct_import_appends_approved_row Sample.base Sample.parcel1
                     Sample.env1 initial) eq_refl)
    as (body & row & _ & Hlog & _ & _ & _ & Hst & _).
  exists row. split; [exact Hlog|exact Hst].
Defined.

(** * The stand-alone rollback and its log files *)

(** The rollback of [sync_rollback_api.py] creates no file when it refuses:
    without an audit log it answers 404 and leaves everything as it is, and
    so it does for an upload id that the audit log does not hold.  When it
    succeeds without a rollback log, it creates that log with exactly the
    rows it took out of the audit log. *)
Theorem standalone_rollback_and_missing_files (x : str) (l : SyncRollbackApi.Logs) :
  (SyncRollbackApi.AUDIT_FILE l = None →
     NotFound (fst (SyncRollbackApi.rollback x l))
     ∧ snd (SyncRollbackApi.rollback x l) = l)
  ∧ (∀ audit, SyncRollbackApi.AUDIT_FILE l = Some audit → x ∉ ids audit →
       NotFound (fst (SyncRollbackApi.rollback x l))
       ∧ snd (SyncRollbackApi.rollback x l) = l)
  ∧ (∀ audit, SyncRollbackApi.AUDIT_FILE l = Some audit → x ∈ ids audit →
       SyncRollbackApi.ROLLBACK_FILE l = None →
       succeeded (fst (SyncRollbackApi.rollback x l)) = true
       ∧ snd (SyncRollbackApi.rollback x l)
         = {| SyncRollbackApi.AUDIT_FILE :=
                Some (filter (fun r => negb (has_id x r)) audit);
              SyncRollbackApi.ROLLBACK_FILE := Some (filter (has_id x) audit) |}).
Proof.
  unfold SyncRollbackApi.rollback. split; [|split].
  - intros ->. split; [by eexists|done].
  - intros audit -> Hx. apply filter_has_id_nil in Hx. rewrite Hx.
    split; [by eexists|done].
  - intros audit -> Hx ->.
    destruct (filter (has_id x) audit) as [|r rest] eqn:Hrow; [|done].
    by apply filter_has_id_nil in Hrow.
Qed.

Lemma standalone_rollback_and_missing_files_witness :
  SyncRollbackApi.AUDIT_FILE
    {| SyncRollbackApi.AUDIT_FILE := None; SyncRollbackApi.ROLLBACK_FILE := None |}
  = None
  ∧ snd (SyncRollbackApi.rollback Sample.u1
           {| SyncRollbackApi.AUDIT_FILE := None;
              SyncRollbackApi.ROLLBACK_FILE := None |})
    = {| SyncRollbackApi.AUDIT_FILE := None; SyncRollbackApi.ROLLBACK_FILE := None |}.
Proof.
  split; [reflexivity|].
  exact (proj2 (proj1 (standalone_rollback_and_missing_files Sample.u1
                         {| SyncRollbackApi.AUDIT_FILE := None;
                            SyncRollbackApi.ROLLBACK_FILE := None |}) eq_refl)).
Defined.
(** * The stand-alone import *)

Section ImportFacts.

(** The XML parser, see [SyncImportApi.extract_prop_id_from_xml]. *)
Variable elements : str → option (list SyncImportApi.Element).

(** With a token other than the authorised one the import answers 403
    before it reads the upload: nothing is written to the log. *)
Theorem sync_import_wrong_token (file : UploadFile.t) (credentials : str)
    (now : datetime) (log : str) :
  credentials ≠ SyncImportApi.AUTHORIZED_TOKEN →
  SyncImportApi.sync_import elements file credentials now log
  = (HTTPException 403 (lit "Invalid or missing token"), log).
Proof.
  intros Hne. unfold SyncImportApi.sync_import, SyncImportApi.verify_token.
  unfold eqb. by rewrite bool_decide_eq_false_2.
Qed.

(** Bytes that are not valid UTF-8 are never handed to the parser: the
    answer has no property id and the risk flag [high], and the line in the
    log says UNKNOWN. *)
Theorem sync_import_undecodable (file : UploadFile.t) (now : datetime) (log : str) :
  decode (UploadFile.file file) = None →
  ∃ body,
    SyncImportApi.sync_import elements file SyncImportApi.AUTHORIZED_TOKEN now log
    = (Returned body,
       log ++ isoformat now ++ lit ", " ++ UploadFile.filename file ++ lit ", "
           ++ UNKNOWN ++ lit ", " ++ sha256_hexdigest (UploadFile.file file)
           ++ lit ", " ++ lit "high" ++ [0x0A])
    ∧ SyncImportApi.prop_id body = None
    ∧ SyncImportApi.risk_flag body = lit "high".
Proof.
  intros Hdec. unfold SyncImportApi.sync_import, SyncImportApi.verify_token.
  replace (negb (eqb SyncImportApi.AUTHORIZED_TOKEN SyncImportApi.AUTHORIZED_TOKEN))
    with false by reflexivity.
  rewrite Hdec. eexists. split; [reflexivity|]. done.
Qed.

(** The first element that mentions the property id decides the result of
    the extraction: its text, stripped of white space.  When that element
    has no text the result is [None], even if a later element holds a
    property id; so is it when no element mentions the property id or
    when the parser raises. *)
Theorem first_mention_decides (contents : str) :
  (elements contents = None →
     SyncImportApi.extract_prop_id_from_xml elements contents = None)
  ∧ (∀ elems, elements contents = Some elems →
       Forall (fun e => SyncImportApi.mentions_prop_id e = false) elems →
       SyncImportApi.extract_prop_id_from_xml elements contents = None)
  ∧ (∀ before elem after,
       elements contents = Some (before ++ elem :: after) →
       Forall (fun e => SyncImportApi.mentions_prop_id e = false) before →
       SyncImportApi.mentions_prop_id elem = true →
       SyncImportApi.extract_prop_id_from_xml elements contents
       = strip <$> SyncImportApi.text elem
       ∧ (SyncImportApi.text elem = None →
          SyncImportApi.extract_prop_id_from_xml elements contents = None)).
Proof.
  unfold SyncImportApi.extract_prop_id_from_xml. split; [by intros ->|]. split.
  - intros elems -> Hnone. induction Hnone as [|e elems He _ IH]; [done|].
    simpl. by rewrite He.
  - intros before elem after -> Hbefore Helem.
    assert (SyncImportApi.first_prop_id (before ++ elem :: after)
            = strip <$> SyncImportApi.text elem) as ->.
    { induction Hbefore as [|e before He _ IH]; simpl.
      - by rewrite Helem.
      - by rewrite He. }
    split; [done|]. by intros ->.
Qed.

End ImportFacts.

Lemma sync_import_wrong_token_witness :
  lit "guess" ≠ SyncImportApi.AUTHORIZED_TOKEN
  ∧ snd (SyncImportApi.sync_import SyncImportApi.one_element Sample.parcel1
           (lit "guess") Sample.noon (lit "earlier line")) = lit "earlier line".
Proof.
  assert (lit "guess" ≠ SyncImportApi.AUTHORIZED_TOKEN) as Hne by discriminate.
  split; [exact Hne|].
  by rewrite (sync_import_wrong_token SyncImportApi.one_element Sample.parcel1
                (lit "guess") Sample.noon (lit "earlier line") Hne).
Defined.

Lemma sync_import_undecodable_witness :
  decode (UploadFile.file Sample.parcel_ff) = None
  ∧ ∃ body, fst (SyncImportApi.sync_import SyncImportApi.one_element Sample.parcel_ff
                   SyncImportApi.AUTHORIZED_TOKEN Sample.noon [])
            = Returned body
            ∧ SyncImportApi.risk_flag body = lit "high".
Proof.
  assert (decode (UploadFile.file Sample.parcel_ff) = None) as Hdec by reflexivity.
  split; [exact Hdec|].
  destruct (sync_import_undecodable SyncImportApi.one_element Sample.parcel_ff
              Sample.noon [] Hdec) as (body & Heq & _ & Hrisk).
  exists body. rewrite Heq. split; [reflexivity|exact Hrisk].
Defined.

Lemma first_mention_decides_witness :
  SyncImportApi.one_element (lit " 4500 ")
  = Some ([] ++ {| SyncImportApi.tag := lit "prop_id";
                   SyncImportApi.text := Some (lit " 4500 ") |} :: [])
  ∧ SyncImportApi.extract_prop_id_from_xml SyncImportApi.one_element (lit " 4500 ")
    = Some (strip (lit " 4500 ")).
Proof.
  split; [reflexivity|].
  exact (proj1 (proj2 (proj2 (first_mention_decides SyncImportApi.one_element
                                (lit " 4500 ")))
                  [] {| SyncImportApi.tag := lit "prop_id";
                        SyncImportApi.text := Some (lit " 4500 ") |} []
                  eq_refl (Forall_nil_2 _) eq_refl)).
Defined.

(** * The shape of an extracted property id *)

Lemma splitlines_no_break_upto (n : nat) (s : str) :
  (length s <= n)%nat →
  Forall (Forall (fun c => is_linebreak c = false)) (splitlines s).
Proof.
  revert s. induction n as [|n IH]; intros s Hlen.
  - destruct s; [constructor|simpl in Hlen; lia].
  - destruct s as [|c rest]; [constructor|]. simpl in Hlen. simpl.
    destruct (is_linebreak c) eqn:Hc.
    + constructor; [constructor|].
      destruct rest as [|c2 rest']; [constructor|]. simpl in Hlen.
      destruct ((c =? 13) && (c2 =? 10)); apply IH; simpl; lia.
    + pose proof (IH rest ltac:(lia)) as Hrest.
      destruct (splitlines rest) as [|l ls].
      * repeat constructor. exact Hc.
      * inversion Hrest; subst. constructor; [|done]. by constructor.
Qed.

Lemma splitlines_no_break (s : str) :
  Forall (Forall (fun c => is_linebreak c = false)) (splitlines s).
Proof. by apply (splitlines_no_break_upto (length s)). Qed.

Lemma split_parts sep (s : str) :
  Forall (fun p => (sep ∉ p) ∧ ∀ c, c ∈ p → c ∈ s) (split sep s).
Proof.
  induction s as [|c s IH]; simpl.
  - constructor; [|constructor]. split; [apply not_elem_of_nil|done].
  - destruct (N.eqb_spec c sep) as [->|Hne].
    + constructor.
      * split; [apply not_elem_of_nil|]. intros c Hc. by apply elem_of_nil in Hc.
      * eapply Forall_impl; [exact IH|]. intros p [Hp Hin]. split; [done|].
        intros c Hc. right. by apply Hin.
    + destruct (split sep s) as [|l ls].
      * constructor; [|constructor]. split.
        -- rewrite list_elem_of_singleton. congruence.
        -- intros c' ->%list_elem_of_singleton. left.
      * inversion IH as [|? ? [Hl Hin] Hls]; subst. constructor.
        -- split.
           ++ rewrite not_elem_of_cons. split; [congruence|done].
           ++ intros c' [->|Hc']%elem_of_cons; [left|right; by apply Hin].
        -- eapply Forall_impl; [exact Hls|]. intros p [Hp Hin']. split; [done|].
           intros c' Hc'. right. by apply Hin'.
Qed.

Lemma lstrip_suffix (s : str) : ∃ front, s = front ++ lstrip s.
Proof.
  induction s as [|c s [front IH]]; [by exists []|]. simpl.
  destruct (is_space c).
  - exists (c :: front). simpl. by rewrite <- IH.
  - by exists [].
Qed.

Lemma lstrip_head (s : str) c t : lstrip s = c :: t → is_space c = false.
Proof.
  induction s as [|c' s IH]; [done|]. simpl.
  destruct (is_space c') eqn:Hc'; [exact IH|]. by intros [= <- <-].
Qed.

Lemma rstrip_prefix (s : str) : ∃ back, s = rstrip s ++ back.
Proof.
  unfold rstrip. destruct (lstrip_suffix (rev s)) as [front Hfront].
  exists (rev front). rewrite <- rev_app_distr, <- Hfront. by rewrite rev_involutive.
Qed.

Lemma rstrip_last (s : str) c t : rstrip s = t ++ [c] → is_space c = false.
Proof.
  unfold rstrip. intros H. apply (f_equal (@rev N)) in H.
  rewrite rev_involutive, rev_app_distr in H. simpl in H.
  by apply lstrip_head in H.
Qed.

(** What [strip] returns is a piece of its argument and has no white space
    at either end. *)
Lemma strip_spec (s : str) :
  (∃ front back, s = front ++ strip s ++ back)
  ∧ (∀ c t, strip s = c :: t → is_space c = false)
  ∧ (∀ c t, strip s = t ++ [c] → is_space c = false).
Proof.
  unfold strip. destruct (lstrip_suffix s) as [front Hfront].
  destruct (rstrip_prefix (lstrip s)) as [back Hback]. split; [|split].
  - exists front, back. by rewrite <- Hback.
  - intros c t Hct. rewrite Hct in Hback. by apply lstrip_head in Hback.
  - intros c t. apply rstrip_last.
Qed.

Lemma scan_lines_shape (lines : list str) :
  Forall (Forall (fun c => is_linebreak c = false)) lines →
  let p := scan_lines lines in
  (58 ∉ p) ∧ Forall (fun c => is_linebreak c = false) p
  ∧ (∀ c t, p = c :: t → is_space c = false)
  ∧ (∀ c t, p = t ++ [c] → is_space c = false).
Proof.
  induction 1 as [|line lines Hline _ IH]; simpl.
  - split; [apply (bool_decide_unpack _); vm_compute; exact I|].
    split; [apply (bool_decide_unpack _); vm_compute; exact I|].
    split.
    + intros c t [= <- _]. reflexivity.
    + intros c t Heq.
      assert (last UNKNOWN = Some c) as Hlast by (rewrite Heq; apply last_snoc).
      vm_compute in Hlast. by injection Hlast as <-.
  - destruct (is_marker_line line); [|exact IH].
    destruct (bool_decide (1 < length (split 58 line))%nat) eqn:Hparts; [|exact IH].
    set (part := nth 1 (split 58 line) []).
    assert ((58 ∉ part) ∧ ∀ c, c ∈ part → c ∈ line) as [Hsep Hin].
    { subst part. pose proof (split_parts 58 line) as Hall.
      destruct (nth_in_or_default 1 (split 58 line) []) as [Hnth|Hdef].
      - eapply Forall_forall in Hall; [exact Hall|]. by apply list_elem_of_In.
      - rewrite Hdef. split; [apply not_elem_of_nil|]. intros c Hc. by apply elem_of_nil in Hc. }
    destruct (strip_spec part) as ((front & back & Hpiece) & Hhead & Hlast).
    assert (∀ c, c ∈ strip part → c ∈ part) as Hsub.
    { intros c Hc. rewrite Hpiece, !elem_of_app. auto. }
    split; [by intros H%Hsub|]. split; [|done].
    apply Forall_forall. intros c Hc.
    eapply Forall_forall in Hline; [exact Hline|]. by apply Hin, Hsub.
Qed.

(** The property id taken from an upload never holds a colon or a line
    break and has no white space at its ends, whatever the bytes: it is
    safe to put it in one cell of a log line.  (It can be empty, when a
    marker line has nothing after its colon.) *)
Theorem extract_prop_id_shape (contents : bytes) :
  let p := extract_prop_id contents in
  (58 ∉ p)
  ∧ Forall (fun c => is_linebreak c = false) p
  ∧ (∀ c t, p = c :: t → is_space c = false)
  ∧ (∀ c t, p = t ++ [c] → is_space c = false).
Proof. apply scan_lines_shape, splitlines_no_break. Qed.

(** A marker line with nothing after its colon gives the empty property
    id, not UNKNOWN. *)
Example empty_prop_id : extract_prop_id (blit "prop_id:") = [].
Proof. reflexivity. Qed.

(** * The shape of a content hash *)

Lemma hexdigit_range (d : N) :
  d < 16 → 48 <= hexdigit d <= 57 ∨ 97 <= hexdigit d <= 102.
Proof. unfold hexdigit. intros Hd. destruct (N.ltb_spec d 10); lia. Qed.

Lemma hex_of_word_shape (w : N) :
  length (hex_of_word w) = 8%nat
  ∧ Forall (fun c => 48 <= c <= 57 ∨ 97 <= c <= 102) (hex_of_word w).
Proof.
  unfold hex_of_word. split.
  - by rewrite length_map, length_rev, length_seq.
  - apply Forall_forall. intros c Hc. apply list_elem_of_In, in_map_iff in Hc.
    destruct Hc as (i & <- & _). apply hexdigit_range. by apply N.mod_lt.
Qed.

Lemma round_length (st : list N * list N) (k : N) :
  length (fst st) = 8%nat → length (fst (round st k)) = 8%nat.
Proof.
  destruct st as [regs w]. unfold round. intros Hlen.
  repeat match goal with
         | |- context [match ?l with [] => _ | _ :: _ => _ end] => destruct l
         end; done.
Qed.

Lemma rounds_length (ks : list N) (st : list N * list N) :
  length (fst st) = 8%nat → length (fst (fold_left round ks st)) = 8%nat.
Proof.
  revert st. induction ks as [|k ks IH]; intros st Hlen; [done|].
  simpl. apply IH. by apply round_length.
Qed.

Lemma compress_length (hash block : list N) :
  length hash = 8%nat → length (compress hash block) = 8%nat.
Proof.
  intros Hlen. unfold compress.
  pose proof (rounds_length round_constants (hash, block) Hlen) as Hregs.
  destruct (fold_left round round_constants (hash, block)) as [regs w].
  simpl in Hregs. rewrite length_map, length_combine. lia.
Qed.

(** The iteration over the blocks, for any compression function. *)
Lemma iterate_blocks_length (step : list N → list N → list N) :
  (∀ hash block, length hash = 8%nat → length (step hash block) = 8%nat) →
  ∀ (count : nat) (ws hash : list N),
    length hash = 8%nat →
    length ((fix go (count : nat) (ws hash : list N) {struct count} : list N :=
               match count with
               | O => hash
               | S count' => go count' (skipn 16 ws) (step hash (firstn 16 ws))
               end) count ws hash) = 8%nat.
Proof.
  intros Hstep. induction count as [|count IH]; intros ws hash Hlen; [exact Hlen|].
  apply IH, Hstep, Hlen.
Qed.

Lemma blocks_length (count : nat) (ws hash : list N) :
  length hash = 8%nat → length (blocks count ws hash) = 8%nat.
Proof. exact (iterate_blocks_length compress compress_length count ws hash). Qed.

Lemma digest_words_length (msg : list N) : length (digest_words msg) = 8%nat.
Proof. unfold digest_words. apply blocks_length. reflexivity. Qed.

Lemma hex_of_words_shape (ws : list N) :
  length (flat_map hex_of_word ws) = (8 * length ws)%nat
  ∧ Forall (fun c => 48 <= c <= 57 ∨ 97 <= c <= 102) (flat_map hex_of_word ws).
Proof.
  induction ws as [|w ws [IHl IHf]]; [by split|].
  cbn [flat_map]. destruct (hex_of_word_shape w) as [Hw1 Hw2]. split.
  - rewrite length_app, Hw1, IHl. simpl. lia.
  - by apply Forall_app.
Qed.

(** The hash stored for an upload is always 64 characters long, each a
    digit or a letter from a to f: the lower-case hexadecimal form of 256
    bits, whatever the bytes, the empty upload included. *)
Theorem sha256_hexdigest_shape (contents : bytes) :
  length (sha256_hexdigest contents) = 64%nat
  ∧ Forall (fun c => 48 <= c <= 57 ∨ 97 <= c <= 102) (sha256_hexdigest contents).
Proof.
  unfold sha256_hexdigest.
  destruct (hex_of_words_shape (digest_words (map Byte.to_N contents))) as [Hl Hf].
  split; [|exact Hf]. rewrite Hl, digest_words_length. reflexivity.
Qed.

(** * The entries of the import log *)

Lemma digits_printable (width : nat) (n : N) (acc : str) :
  Forall (fun c => 32 <= c) acc → Forall (fun c => 32 <= c) (digits width n acc).
Proof.
  revert n acc. induction width as [|width IH]; intros n acc Hacc; [exact Hacc|].
  simpl. apply IH. constructor; [|exact Hacc].
  generalize (n mod 10). intros d. lia.
Qed.

Lemma isoformat_printable (d : datetime) : Forall (fun c => 32 <= c) (isoformat d).
Proof.
  unfold isoformat, zfill.
  assert (∀ s, Forall (fun c => 32 <= c) (lit s) ↔ forallb (fun c => 32 <=? c) (lit s) = true)
    as Hlit.
  { intros s. rewrite forallb_forall, Forall_forall. split.
    - intros H c Hc. apply N.leb_le, H. by apply list_elem_of_In.
    - intros H c Hc. apply N.leb_le, H. by apply list_elem_of_In. }
  repeat apply Forall_app_2; try (apply digits_printable; constructor);
    try (apply Hlit; reflexivity).
  destruct (microsecond d =? 0); [constructor|].
  apply Forall_app_2; [apply Hlit; reflexivity|apply digits_printable; constructor].
Qed.

Lemma sha256_hexdigest_printable (contents : bytes) :
  Forall (fun c => 32 <= c) (sha256_hexdigest contents).
Proof.
  unfold sha256_hexdigest.
  destruct (hex_of_words_shape (digest_words (map Byte.to_N contents))) as [_ Hf].
  eapply Forall_impl; [exact Hf|]. intros c Hc. simpl in Hc. lia.
Qed.

(** A control character is in a log entry only if the file name or the
    logged id brought it there. *)
Lemma log_entry_control (now : datetime) (name id sha risk : str) (c : N) :
  c < 32 →
  Forall (fun c => 32 <= c) sha → Forall (fun c => 32 <= c) risk →
  c ∈ isoformat now ++ lit ", " ++ name ++ lit ", " ++ id ++ lit ", " ++ sha
      ++ lit ", " ++ risk
  ↔ c ∈ name ∨ c ∈ id.
Proof.
  intros Hc Hsha Hrisk.
  assert (∀ s, Forall (fun c => 32 <= c) s → c ∉ s) as Hout.
  { intros s Hs Hin. eapply Forall_forall in Hs; [|exact Hin]. simpl in Hs. lia. }
  pose proof (Hout _ (isoformat_printable now)) as Hnow.
  pose proof (Hout _ Hsha) as Hs. pose proof (Hout _ Hrisk) as Hr.
  assert (c ∉ lit ", ") as Hsep.
  { intros [->|[->|[]%elem_of_nil]%elem_of_cons]%elem_of_cons; vm_compute in Hc;
      discriminate. }
  rewrite !elem_of_app. tauto.
Qed.

Section ImportLog.

(** The XML parser, see [SyncImportApi.extract_prop_id_from_xml]. *)
Variable elements : str → option (list SyncImportApi.Element).

(** With the authorised token the import never fails, whatever the bytes
    and whatever the parser does: it answers [received] with the hash of
    the bytes and appends one entry, ended by a newline, to the log.  The
    risk flag is [high] exactly when no property id was found (none at
    all, or an empty one), and then the entry says UNKNOWN; otherwise the
    flag is [none] and the entry holds the property id of the answer.  The
    entry is not always one line: a line feed, a carriage return or any
    other control character is in it exactly when it is in the file name
    or in the logged id, neither of which is checked for one. *)
Theorem sync_import_logs_one_entry (file : UploadFile.t) (now : datetime)
    (log : str) :
  ∃ body logged_id entry,
    SyncImportApi.sync_import elements file SyncImportApi.AUTHORIZED_TOKEN now log
    = (Returned body, log ++ entry ++ [0x0A])
    ∧ entry = isoformat now ++ lit ", " ++ UploadFile.filename file ++ lit ", "
              ++ logged_id ++ lit ", " ++ SyncImportApi.sha256 body ++ lit ", "
              ++ SyncImportApi.risk_flag body
    ∧ SyncImportApi.status body = lit "received"
    ∧ SyncImportApi.sha256 body = sha256_hexdigest (UploadFile.file file)
    ∧ (SyncImportApi.risk_flag body = lit "high"
       ∨ SyncImportApi.risk_flag body = lit "none")
    ∧ (SyncImportApi.risk_flag body = lit "high" ↔
         SyncImportApi.prop_id body = None ∨ SyncImportApi.prop_id body = Some [])
    ∧ (SyncImportApi.risk_flag body = lit "high" → logged_id = UNKNOWN)
    ∧ (SyncImportApi.risk_flag body = lit "none" →
         SyncImportApi.prop_id body = Some logged_id ∧ logged_id ≠ [])
    ∧ (∀ c, c < 32 →
         (c ∈ entry ↔ c ∈ UploadFile.filename file ∨ c ∈ logged_id)).
Proof.
  unfold SyncImportApi.sync_import, SyncImportApi.verify_token.
  replace (negb (eqb SyncImportApi.AUTHORIZED_TOKEN SyncImportApi.AUTHORIZED_TOKEN))
    with false by reflexivity.
  cbv zeta. unfold SyncImportApi.log_sync.
  pose proof (sha256_hexdigest_printable (UploadFile.file file)) as Hsha.
  revert Hsha. generalize (sha256_hexdigest (UploadFile.file file)). intros sha Hsha.
  generalize (match decode (UploadFile.file file) with
              | Some text => SyncImportApi.extract_prop_id_from_xml elements text
              | None => None
              end).
  assert (lit "high" ≠ lit "none") as Hhn by discriminate.
  assert (lit "none" ≠ lit "high") as Hnh by discriminate.
  assert (Forall (fun c => 32 <= c) (lit "high")) as Hhigh
    by (repeat constructor; discriminate).
  assert (Forall (fun c => 32 <= c) (lit "none")) as Hnone
    by (repeat constructor; discriminate).
  intros [[|c p]|]; cbn [SyncImportApi.truthy negb default from_option].
  - exists {| SyncImportApi.status := lit "received";
              SyncImportApi.filename := UploadFile.filename file;
              SyncImportApi.prop_id := Some [];
              SyncImportApi.sha256 := sha;
              SyncImportApi.risk_flag := lit "high" |}, UNKNOWN.
    exists (isoformat now ++ lit ", " ++ UploadFile.filename file ++ lit ", "
            ++ UNKNOWN ++ lit ", " ++ sha ++ lit ", " ++ lit "high").
    cbn [SyncImportApi.status SyncImportApi.sha256 SyncImportApi.risk_flag
         SyncImportApi.prop_id].
    split; [do 2 f_equal; by rewrite <- !app_assoc|]. split; [reflexivity|].
    split; [reflexivity|]. split; [reflexivity|].
    split; [by left|]. split; [split; [by right|reflexivity]|].
    split; [reflexivity|]. split; [by intros ?|].
    intros c Hc. by apply log_entry_control.
  - exists {| SyncImportApi.status := lit "received";
              SyncImportApi.filename := UploadFile.filename file;
              SyncImportApi.prop_id := Some (c :: p);
              SyncImportApi.sha256 := sha;
              SyncImportApi.risk_flag := lit "none" |}, (c :: p).
    exists (isoformat now ++ lit ", " ++ UploadFile.filename file ++ lit ", "
            ++ (c :: p) ++ lit ", " ++ sha ++ lit ", " ++ lit "none").
    cbn [SyncImportApi.status SyncImportApi.sha256 SyncImportApi.risk_flag
         SyncImportApi.prop_id].
    split; [do 2 f_equal; by rewrite <- !app_assoc|]. split; [reflexivity|].
    split; [reflexivity|]. split; [reflexivity|].
    split; [by right|]. split; [split; [by intros ?|by intros [?|?]]|].
    split; [by intros ?|]. split; [intros _; split; [reflexivity|discriminate]|].
    intros c' Hc'. by apply log_entry_control.
  - exists {| SyncImportApi.status := lit "received";
              SyncImportApi.filename := UploadFile.filename file;
              SyncImportApi.prop_id := None;
              SyncImportApi.sha256 := sha;
              SyncImportApi.risk_flag := lit "high" |}, UNKNOWN.
    exists (isoformat now ++ lit ", " ++ UploadFile.filename file ++ lit ", "
            ++ UNKNOWN ++ lit ", " ++ sha ++ lit ", " ++ lit "high").
    cbn [SyncImportApi.status SyncImportApi.sha256 SyncImportApi.risk_flag
         SyncImportApi.prop_id].
    split; [do 2 f_equal; by rewrite <- !app_assoc|]. split; [reflexivity|].
    split; [reflexivity|]. split; [reflexivity|].
    split; [by left|]. split; [split; [by left|reflexivity]|].
    split; [reflexivity|]. split; [by intros ?|].
    intros c Hc. by apply log_entry_control.
Qed.

End ImportLog.

(** An entry of two lines: the text of the element that holds the
    property id has a line feed inside, which [strip] leaves where it is. *)
Example import_log_entry_of_two_lines :
  snd (SyncImportApi.sync_import SyncImportApi.one_element Sample.parcel_two_lines
         SyncImportApi.AUTHORIZED_TOKEN Sample.noon [])
  = lit "2025-03-14T12:00:00.000250, parcel4.xml, 12" ++ [0x0A]
    ++ lit "34, " ++ sha256_hexdigest (UploadFile.file Sample.parcel_two_lines)
    ++ lit ", none" ++ [0x0A].
Proof. vm_compute. reflexivity. Qed.

(** * What the workflow reads of a log *)

Lemma ids_statuses (log : list Row) : ids log = (statuses log).*1.
Proof.
  induction log as [|r log IH]; [done|].
  change (ids (r :: log)) with (upload_id r :: ids log).
  change (statuses (r :: log)) with (id_status r :: statuses log).
  by rewrite fmap_cons, <- IH.
Qed.

Lemma statuses_mark x v (log : list Row) :
  statuses (map (fun r => if has_id x r then with_status v r else r) log)
  = map (fun p => if eqb p.1 x then (p.1, v) else p) (statuses log).
Proof.
  induction log as [|r log IH]; [done|]. simpl. rewrite <- IH. f_equal.
  unfold has_id. by destruct (eqb (upload_id r) x).
Qed.

Lemma statuses_filter_has_id x (log : list Row) :
  statuses (filter (has_id x) log) = filter (fun p => eqb p.1 x) (statuses log).
Proof.
  induction log as [|r log IH]; [done|].
  change (statuses (r :: log)) with (id_status r :: statuses log).
  rewrite (filter_cons (has_id x)), (filter_cons (fun p => eqb p.1 x)).
  change (eqb (id_status r).1 x) with (has_id x r).
  destruct (decide (has_id x r)) as [Hr|Hr]; destruct (decide (has_id x r)) as [Hr'|Hr'];
    try done; simpl; by rewrite <- IH.
Qed.

Lemma statuses_filter_other x (log : list Row) :
  statuses (filter (fun r => negb (has_id x r)) log)
  = filter (fun p => negb (eqb p.1 x)) (statuses log).
Proof.
  induction log as [|r log IH]; [done|].
  change (statuses (r :: log)) with (id_status r :: statuses log).
  rewrite (filter_cons (fun r => negb (has_id x r))),
    (filter_cons (fun p => negb (eqb p.1 x))).
  change (eqb (id_status r).1 x) with (has_id x r).
  destruct (decide (negb (has_id x r))) as [Hr|Hr];
    destruct (decide (negb (has_id x r))) as [Hr'|Hr'];
    try done; simpl; by rewrite <- IH.
Qed.

Section Views.

Variable BASE_DIR : str.

Lemma log_view_step (q : request) (s1 s2 : State) :
  log_view s1 = log_view s2 →
  fst (handle BASE_DIR q s1) = fst (handle BASE_DIR q s2)
  ∧ log_view (step BASE_DIR s1 q) = log_view (step BASE_DIR s2 q).
Proof.
  unfold log_view. intros [= Hst Hau Hro].
  assert (ids (STAGING_FILE s1) = ids (STAGING_FILE s2)) as Hids
    by (by rewrite !ids_statuses, Hst).
  assert (ids (AUDIT_FILE s1) = ids (AUDIT_FILE s2)) as Hida
    by (by rewrite !ids_statuses, Hau).
  unfold step. destruct q as [file env|file env|y|y]; simpl.
  - destruct (decide (disk env = Written)) as [Hw|Hw].
    + unfold stage_file. rewrite !(save_upload_written _ _ _ _ Hw). simpl.
      split; [done|]. by rewrite !statuses_app, Hst, Hau, Hro.
    + destruct (stage_file_failed BASE_DIR file env s1 Hw) as (fs1 & -> & _).
      destruct (stage_file_failed BASE_DIR file env s2 Hw) as (fs2 & -> & _).
      simpl. by rewrite Hst, Hau, Hro.
  - destruct (decide (disk env = Written)) as [Hw|Hw].
    + unfold direct_import. rewrite !(save_upload_written _ _ _ _ Hw). simpl.
      split; [done|]. by rewrite !statuses_app, Hst, Hau, Hro.
    + destruct (direct_import_failed BASE_DIR file env s1 Hw) as (fs1 & -> & _).
      destruct (direct_import_failed BASE_DIR file env s2 Hw) as (fs2 & -> & _).
      simpl. by rewrite Hst, Hau, Hro.
  - destruct (decide (y ∈ ids (STAGING_FILE s1))) as [Hy|Hy].
    + rewrite (approve_upload_present y s1 Hy).
      rewrite Hids in Hy. rewrite (approve_upload_present y s2 Hy). simpl.
      split; [done|].
      by rewrite !statuses_app, !statuses_mark, !statuses_filter_has_id, Hst, Hau, Hro.
    + rewrite (approve_upload_absent y s1 Hy).
      rewrite Hids in Hy. rewrite (approve_upload_absent y s2 Hy). simpl.
      by rewrite Hst, Hau, Hro.
  - destruct (decide (y ∈ ids (AUDIT_FILE s1))) as [Hy|Hy].
    + rewrite (rollback_upload_present y s1 Hy).
      rewrite Hida in Hy. rewrite (rollback_upload_present y s2 Hy). simpl.
      split; [done|].
      by rewrite !statuses_app, !statuses_filter_has_id, !statuses_filter_other,
           Hst, Hau, Hro.
    + rewrite (rollback_upload_absent y s1 Hy).
      rewrite Hida in Hy. rewrite (rollback_upload_absent y s2 Hy). simpl.
      by rewrite Hst, Hau, Hro.
Qed.

(** The handlers read nothing of a log but the upload ids, and write
    nothing into a row already there but a status.  So what a sequence of
    requests (each reading and writing its logs to the end) makes of the
    upload ids and statuses in the three logs, and
    every answer along the way, is the same from two states whose logs
    hold the same upload ids with the same statuses, whatever their other
    cells hold: a log whose property ids or file names have been written
    back in another form is handled like the log as first written. *)
Theorem log_view_decides (qs : list request) (s1 s2 : State) :
  log_view s1 = log_view s2 →
  log_view (run BASE_DIR qs s1) = log_view (run BASE_DIR qs s2)
  ∧ ∀ before q after, qs = before ++ q :: after →
      fst (handle BASE_DIR q (run BASE_DIR before s1))
      = fst (handle BASE_DIR q (run BASE_DIR before s2)).
Proof.
  revert s1 s2. induction qs as [|q qs IH]; intros s1 s2 Hview.
  - split; [exact Hview|]. intros before q after Heq. by destruct before.
  - destruct (log_view_step q s1 s2 Hview) as [Hfst Hstep].
    destruct (IH _ _ Hstep) as [Hrun Hanswers].
    change (run BASE_DIR (q :: qs) s1) with (run BASE_DIR qs (step BASE_DIR s1 q)).
    change (run BASE_DIR (q :: qs) s2) with (run BASE_DIR qs (step BASE_DIR s2 q)).
    split; [exact Hrun|].
    intros [|q0 before] q' after Heq; simplify_eq/=; [exact Hfst|].
    by eapply Hanswers.
Qed.

End Views.

Lemma log_view_decides_witness :
  log_view Sample.staged = log_view Sample.staged_reread
  ∧ STAGING_FILE Sample.staged ≠ STAGING_FILE Sample.staged_reread
  ∧ log_view (run Sample.base [Approve Sample.u1; Rollback Sample.u1] Sample.staged)
    = log_view (run Sample.base [Approve Sample.u1; Rollback Sample.u1]
                  Sample.staged_reread).
Proof.
  assert (log_view Sample.staged = log_view Sample.staged_reread) as Hview
    by (vm_compute; reflexivity).
  split; [exact Hview|]. split; [vm_compute; discriminate|].
  exact (proj1 (log_view_decides Sample.base [Approve Sample.u1; Rollback Sample.u1]
                  Sample.staged Sample.staged_reread Hview)).
Defined.
